(** * Biogas plant / operator contact pipeline: a shallow embedding

    The development follows [src/core/contact_builder.py],
    [src/core/plant_builder.py] and [scripts/main.py].  A pandas frame is a
    list of column names together with its rows; a cell read by
    [pd.read_csv(..., dtype=str)] is either the missing value (NaN) or a
    string.  Everything the code does to the outside world (reading a chunk,
    an HTTP request, driving the browser, sleeping, printing a diagnostic) is
    kept as data: the input feed is a list of read results and the effects
    are collected in traces. *)

From Stdlib Require Import QArith.
From Stdlib Require Import List String Ascii ZArith Bool Lia Arith.
From Stdlib Require Import DecimalString.
Local Close Scope Q_scope.
Import ListNotations.
Local Open Scope string_scope.
Local Open Scope list_scope.

(* ------------------------------------------------------------------------ *)
(** ** Python values and string methods *)

Module Py.

(** A cell of an object column read with [dtype=str]: the float NaN that
    pandas puts where the CSV field is empty, or a string.  All NaN cells
    are the one object [np.nan], so a dict finds a NaN key again. *)
Inductive cell : Type :=
| NaN
| Str (s : string).

Definition cell_eq_dec (a b : cell) : {a = b} + {a <> b}.
Proof. decide equality. apply string_dec. Defined.

Definition cell_eqb (a b : cell) : bool :=
  match a, b with
  | NaN, NaN => true
  | Str s, Str t => String.eqb s t
  | _, _ => false
  end.

(** [bool(x)]: NaN is a non-zero float, hence true; a string is true when
    it is not empty. *)
Definition truthy (c : cell) : bool :=
  match c with
  | NaN => true
  | Str s => negb (String.eqb s "")
  end.

(** [str(x)], also what [Series.astype(str)] does cell by cell. *)
Definition str (c : cell) : string :=
  match c with
  | NaN => "nan"
  | Str s => s
  end.

Definition isna (c : cell) : bool :=
  match c with NaN => true | Str _ => false end.

Definition notna (c : cell) : bool := negb (isna c).

(** [x == ""] on a cell. *)
Definition is_empty_str (c : cell) : bool :=
  match c with NaN => false | Str s => String.eqb s "" end.

(** Truth value of an optional string ([None] or a [str]). *)
Definition truthy_opt (o : option string) : bool :=
  match o with
  | None => false
  | Some s => negb (String.eqb s "")
  end.

(** Characters are taken as ASCII text. [isspace] is Python's
    [str.isspace] on that range, which is also what [\s] matches. *)
Definition isspace (c : ascii) : bool :=
  let n := nat_of_ascii c in
  ((9 <=? n) && (n <=? 13) || (28 <=? n) && (n <=? 32))%nat.

Definition isdigit (c : ascii) : bool :=
  let n := nat_of_ascii c in ((48 <=? n) && (n <=? 57))%nat.

Definition isupper (c : ascii) : bool :=
  let n := nat_of_ascii c in ((65 <=? n) && (n <=? 90))%nat.

Definition isalpha (c : ascii) : bool :=
  let n := nat_of_ascii c in
  ((65 <=? n) && (n <=? 90) || (97 <=? n) && (n <=? 122))%nat.

Definition lower_char (c : ascii) : ascii :=
  if isupper c then ascii_of_nat (nat_of_ascii c + 32) else c.

Fixpoint smap (f : ascii -> ascii) (s : string) : string :=
  match s with
  | EmptyString => EmptyString
  | String c r => String (f c) (smap f r)
  end.

(** [s.lower()] *)
Definition lower (s : string) : string := smap lower_char s.

(** [s.replace(a, b)] for one-character [a] and [b]. *)
Definition replace_char (a b : ascii) (s : string) : string :=
  smap (fun c => if Ascii.eqb c a then b else c) s.

Fixpoint lstrip_by (p : ascii -> bool) (s : string) : string :=
  match s with
  | EmptyString => EmptyString
  | String c r => if p c then lstrip_by p r else s
  end.

Fixpoint rstrip_by (p : ascii -> bool) (s : string) : string :=
  match s with
  | EmptyString => EmptyString
  | String c r =>
      match rstrip_by p r with
      | EmptyString => if p c then EmptyString else String c EmptyString
      | r' => String c r'
      end
  end.

(** [s.strip()] *)
Definition strip (s : string) : string :=
  rstrip_by isspace (lstrip_by isspace s).

(** [s.rstrip("/")] *)
Definition rstrip_slash (s : string) : string :=
  rstrip_by (fun c => Ascii.eqb c "/"%char) s.

(** [re.sub(r"\s+", "", s)] *)
Fixpoint remove_spaces (s : string) : string :=
  match s with
  | EmptyString => EmptyString
  | String c r => if isspace c then remove_spaces r
                  else String c (remove_spaces r)
  end.

(** [re.sub(r"\s+", " ", s)]: every maximal run of white space becomes
    one blank.  [in_run] tells whether the previous character was white
    space. *)
Fixpoint squeeze_from (in_run : bool) (s : string) : string :=
  match s with
  | EmptyString => EmptyString
  | String c r =>
      if isspace c
      then if in_run then squeeze_from true r
           else String " "%char (squeeze_from true r)
      else String c (squeeze_from false r)
  end.

Definition squeeze_spaces (s : string) : string := squeeze_from false s.

(** [s.startswith(p)] *)
Definition startswith (p s : string) : bool := String.prefix p s.

(** [p in s] *)
Fixpoint contains (p s : string) : bool :=
  String.prefix p s ||
  match s with
  | EmptyString => false
  | String _ r => contains p r
  end.

(** [s[:n]] *)
Definition take (n : nat) (s : string) : string := String.substring 0 n s.

End Py.

Export Py.

(* ------------------------------------------------------------------------ *)
(** ** Frames as [pd.read_csv] yields them *)

Module Frame.

Record t : Type := mk {
  columns : list string;
  rows : list (list cell)
}.

(** [df.empty]: one of the two axes has length zero. *)
Definition empty (df : t) : bool :=
  match columns df, rows df with
  | [], _ => true
  | _, [] => true
  | _, _ => false
  end.

(** [col in df.columns] *)
Definition has_column (col : string) (df : t) : bool :=
  existsb (String.eqb col) (columns df).

Fixpoint lookup (tbl : list (string * string)) (k : string) : option string :=
  match tbl with
  | [] => None
  | (a, b) :: r => if String.eqb a k then Some b else lookup r k
  end.

(** [df.rename(columns=mapping)]: names outside the mapping stay. *)
Definition rename (mapping : list (string * string)) (df : t) : t :=
  mk (map (fun c => match lookup mapping c with
                    | Some c' => c'
                    | None => c
                    end) (columns df))
     (rows df).

Fixpoint index_of (col : string) (cols : list string) : option nat :=
  match cols with
  | [] => None
  | c :: r => if String.eqb c col then Some 0
              else option_map S (index_of col r)
  end.

(** The value of column [col] in [row]; [None] when the frame has no such
    column.  A CSV line with fewer fields than the header is padded with
    NaN by the reader.  A column is found at its first position: frames
    in which two source columns are renamed to one name are outside the
    model. *)
Definition get (df : t) (col : string) (row : list cell) : option cell :=
  match index_of col (columns df) with
  | Some i => Some (nth i row NaN)
  | None => None
  end.

Fixpoint set_nth (i : nat) (v : cell) (row : list cell) : list cell :=
  match i, row with
  | O, _ :: r => v :: r
  | O, [] => [v]
  | S j, c :: r => c :: set_nth j v r
  | S j, [] => NaN :: set_nth j v []
  end.

(** [df[col] = v] with a scalar [v]: overwrite the column when it exists,
    append it otherwise. *)
Definition assign (col : string) (v : cell) (df : t) : t :=
  match index_of col (columns df) with
  | Some i => mk (columns df) (map (set_nth i v) (rows df))
  | None => mk (columns df ++ [col])
               (map (set_nth (List.length (columns df)) v) (rows df))
  end.

End Frame.

(** What the chunk iterator of [pd.read_csv(path, dtype=str, chunksize=...)]
    gives at one step: a frame, or an exception raised while that chunk is
    read ([EmptyDataError] for a file without header, any other error such
    as a tokenizing error otherwise).  Iteration stops at the first
    exception. *)
Inductive read : Type :=
| Chunk (df : Frame.t)
| EmptyDataError
| ReadError.

Definition feed : Type := list read.

(* ------------------------------------------------------------------------ *)
(** ** contact_builder.py *)

Module ContactBuilder.

Definition CHUNKSIZE : Z := 250000.
Definition MAXROWS_XLSX : Z := 1000000.

(** One operator row over the columns [keep]. *)
Record operator : Type := mkOperator {
  market_actor_id : cell;
  market_actor_name : cell;
  email : cell;
  phone : cell;
  website : cell
}.

(** The frame built by [pd.DataFrame.from_dict(store, orient="index")]:
    index label and row, in insertion order of the dict. *)
Definition table : Type := list (cell * operator).

Definition column_mapping : list (string * string) :=
  [ ("MastrNummer", "market_actor_id");
    ("Firmenname", "market_actor_name");
    ("Email", "email");
    ("Telefon", "phone");
    ("Webseite", "website") ].

Definition keep : list string :=
  ["market_actor_id"; "market_actor_name"; "email"; "phone"; "website"].

(** Diagnostics printed by the scan. *)
Inductive diag : Type :=
| NoRequiredColumns
| EmptyCsvFile
| ErrorReading
| NoMarketActorData.

(** A cell of the chunk after [chunk[available_cols].copy()] and the
    filling of absent columns with the empty string. *)
Definition field (chunk : Frame.t) (col : string) (row : list cell) : cell :=
  match Frame.get chunk col row with
  | Some c => c
  | None => Str ""
  end.

Definition to_operator (chunk : Frame.t) (row : list cell) : operator :=
  {| market_actor_id := field chunk "market_actor_id" row;
     market_actor_name := field chunk "market_actor_name" row;
     email := field chunk "email" row;
     phone := field chunk "phone" row;
     website := field chunk "website" row |}.

(** The body of the chunk loop up to the row loop: [None] when the chunk
    is skipped after the diagnostic, otherwise the rows that
    [chunk.iterrows()] yields. *)
Definition prepare (chunk : Frame.t) : option (list operator) :=
  let chunk := Frame.rename column_mapping chunk in
  let available_cols :=
    filter (fun col => Frame.has_column col chunk) keep in
  match available_cols with
  | [] => None
  | _ => Some (map (to_operator chunk) (Frame.rows chunk))
  end.

(** The guard of the row loop, negated: the row is kept when
    [row.get("email") or row.get("phone") or str(row.get("website", ""))]
    is true. *)
Definition retained (row : operator) : bool :=
  truthy (email row) || truthy (phone row)
  || negb (String.eqb (Py.str (website row)) "").

Definition has_key (k : cell) (store : table) : bool :=
  existsb (fun e => cell_eqb (fst e) k) store.

(** [store.setdefault(k, row)] on an insertion-ordered dict. *)
Definition setdefault (k : cell) (row : operator) (store : table) : table :=
  if has_key k store then store else store ++ [(k, row)].

(** One turn of [for _, row in chunk.iterrows()]. *)
Definition upsert (store : table) (row : operator) : table :=
  if negb (retained row) then store
  else setdefault (market_actor_id row) row store.

(** The [try] block: the chunk loop, left at the first exception. *)
Fixpoint scan (f : feed) (store : table) (log : list diag)
  : table * list diag :=
  match f with
  | [] => (store, log)
  | Chunk chunk :: rest =>
      if Frame.empty chunk then scan rest store log
      else match prepare chunk with
           | None => scan rest store (log ++ [NoRequiredColumns])
           | Some rows => scan rest (fold_left upsert rows store) log
           end
  | EmptyDataError :: _ => (store, log ++ [EmptyCsvFile])
  | ReadError :: _ => (store, log ++ [ErrorReading])
  end.

Definition _deduplicate (f : feed) : table * list diag :=
  let '(store, log) := scan f [] [] in
  match store with
  | [] => ([], log ++ [NoMarketActorData])
  | _ => (store, log)
  end.

(** The rows the row loop sees, in feed order. *)
Fixpoint fed_rows (f : feed) : list operator :=
  match f with
  | Chunk chunk :: rest =>
      (if Frame.empty chunk then []
       else match prepare chunk with
            | None => []
            | Some rows => rows
            end) ++ fed_rows rest
  | _ => []
  end.


(* ---------------------------------------------------------------------- *)
(** *** Extraction of the first e-mail address and phone number *)

(** Longest prefix of [s] whose characters satisfy [p], and what follows. *)
Fixpoint span (p : ascii -> bool) (s : string) : string * string :=
  match s with
  | EmptyString => (EmptyString, EmptyString)
  | String c r =>
      if p c then let '(a, b) := span p r in (String c a, b)
      else (EmptyString, s)
  end.

Definition one_of (cs : string) (c : ascii) : bool :=
  existsb (Ascii.eqb c) (list_ascii_of_string cs).

(** [[A-Za-z0-9._%+-]] *)
Definition local_char (c : ascii) : bool :=
  isalpha c || isdigit c || one_of "._%+-" c.

(** [[A-Za-z0-9.-]] *)
Definition domain_char (c : ascii) : bool :=
  isalpha c || isdigit c || one_of ".-" c.

(** [[\d\s()/.-]] *)
Definition phone_char (c : ascii) : bool :=
  isdigit c || isspace c || one_of "()/.-" c.

(** Inside a maximal run of domain characters, the part matched by
    [[A-Za-z0-9.-]+\.[A-Za-z]{2,}]: the greedy domain gives back
    characters until it stands before the last dot that is followed by two
    letters or more; the dot cannot be the first character of the run. *)
Fixpoint domain_match (first : bool) (run : string) : option string :=
  match run with
  | EmptyString => None
  | String c r =>
      match domain_match false r with
      | Some m => Some (String c m)
      | None =>
          let tld := fst (span isalpha r) in
          if Ascii.eqb c "."%char && negb first
             && (2 <=? String.length tld)%nat
          then Some (String c tld)
          else None
      end
  end.

(** A match of [EMAIL_RE] that starts at the first character of [s]. *)
Definition email_at (s : string) : option string :=
  let '(loc, rest) := span local_char s in
  match loc, rest with
  | String _ _, String "@"%char rest' =>
      match domain_match true (fst (span domain_char rest')) with
      | Some m => Some (loc ++ String "@"%char m)%string
      | None => None
      end
  | _, _ => None
  end.

(** A match of [PHONE_RE] that starts at the first character of [s]. *)
Definition phone_at (s : string) : option string :=
  let after_digit (pre : string) (s' : string) :=
    match s' with
    | String d r =>
        let run := fst (span phone_char r) in
        if isdigit d && (6 <=? String.length run)%nat
        then Some (pre ++ String d run)%string
        else None
    | EmptyString => None
    end in
  match s with
  | String "+"%char r => after_digit "+" r
  | _ => after_digit "" s
  end.

(** [next(iter(RE.findall(html)), None)]: the leftmost match. *)
Fixpoint first_match (at_pos : string -> option string) (s : string)
  : option string :=
  match at_pos s with
  | Some m => Some m
  | None =>
      match s with
      | EmptyString => None
      | String _ r => first_match at_pos r
      end
  end.

Definition EMAIL_RE : string -> option string := email_at.
Definition PHONE_RE : string -> option string := phone_at.

Definition _extract (html : string) : option string * option string :=
  (first_match EMAIL_RE html, first_match PHONE_RE html).

(* ---------------------------------------------------------------------- *)
(** *** The outside world of the resolution pass *)

Record response : Type := mkResponse {
  ok : bool;
  content_type : option string;
  text : string
}.

(** What [requests.get(url, headers=hdrs, timeout=10)] does: it returns a
    response, raises a [requests.RequestException], or raises anything
    else. *)
Inductive fetch : Type :=
| Response (r : response)
| RequestException
| OtherException.

(** What [driver.get(base)] followed by [driver.page_source] does: the
    rendered page, an exception raised by [driver.get], or an exception
    raised when the page source is read. *)
Inductive browse : Type :=
| PageSource (html : string)
| WebDriverException
| PageSourceError.

(** Effects of the pass, in the order they happen.  [Sleep] carries the
    duration in milliseconds. *)
Inductive event : Type :=
| ChromeStarted
| ChromeUnavailable
| HttpGet (url : string)
| DriverGet (url : string)
| Sleep (ms : Z)
| DriverQuit.

(** The answers of the outside world may depend on everything that
    happened before. *)
Record world : Type := mkWorld {
  requests_get : list event -> string -> fetch;
  driver_page : list event -> string -> browse;
  chrome_available : bool
}.

(** The frame mutated in place and the effects so far. *)
Record state : Type := mkState {
  frame : table;
  trace : list event
}.

Inductive result (A : Type) : Type :=
| Done (a : A)
| Raised.
Arguments Done {A} a.
Arguments Raised {A}.

Definition M (A : Type) : Type := state -> result A * state.

Definition ret {A} (a : A) : M A := fun st => (Done a, st).

Definition bind {A B} (m : M A) (k : A -> M B) : M B :=
  fun st =>
    match m st with
    | (Done a, st') => k a st'
    | (Raised, st') => (Raised, st')
    end.

Definition raise {A} : M A := fun st => (Raised, st).

Definition emit (e : event) : M unit :=
  fun st => (Done tt, mkState (frame st) (trace st ++ [e])).

Definition modify (f : table -> table) : M unit :=
  fun st => (Done tt, mkState (f (frame st)) (trace st)).

Definition when (b : bool) (m : M unit) : M unit :=
  if b then m else ret tt.

Declare Scope scrape_scope.
Delimit Scope scrape_scope with scrape.
Notation "x <- m ;; k" := (bind m (fun x => k))
  (at level 61, m at next level, right associativity) : scrape_scope.
Notation "m ;; k" := (bind m (fun _ => k))
  (at level 61, right associativity) : scrape_scope.
Local Open Scope scrape_scope.

Definition with_email (v : string) (r : operator) : operator :=
  mkOperator (market_actor_id r) (market_actor_name r) (Str v)
             (phone r) (website r).

Definition with_phone (v : string) (r : operator) : operator :=
  mkOperator (market_actor_id r) (market_actor_name r) (email r)
             (Str v) (website r).

(** [df.at[idx, col] = v] for a label [idx] of the frame; [upd] writes the
    column. *)
Definition set_at (idx : cell) (upd : operator -> operator) (df : table)
  : table :=
  map (fun e => if cell_eqb (fst e) idx then (fst e, upd (snd e)) else e) df.

(** [if email: df.at[idx, "email"] = email] and the same for the phone. *)
Definition write_back (idx : cell) (found : option string * option string)
  : M unit :=
  when (truthy_opt (fst found))
       (modify (set_at idx (with_email (match fst found with
                                        | Some v => v
                                        | None => ""
                                        end))));;
  when (truthy_opt (snd found))
       (modify (set_at idx (with_phone (match snd found with
                                        | Some v => v
                                        | None => ""
                                        end)))).

Section Pass.

Variable w : world.

Definition http_get (url : string) : M fetch :=
  fun st => (Done (requests_get w (trace st) url),
             mkState (frame st) (trace st ++ [HttpGet url])).

Definition driver_get (url : string) : M browse :=
  fun st => (Done (driver_page w (trace st) url),
             mkState (frame st) (trace st ++ [DriverGet url])).

(** ["text/html" in r.headers.get("content-type", "")] *)
Definition is_html (r : response) : bool :=
  contains "text/html" (match content_type r with
                        | Some v => v
                        | None => ""
                        end).

(** The loop of [_try_plain] over the suffixes still to try. *)
Fixpoint try_suffixes (idx : cell) (base : string) (sufs : list string)
  : M bool :=
  match sufs with
  | [] => ret false
  | suf :: rest =>
      r <- http_get (base ++ suf)%string;;
      match r with
      | Response r =>
          if ok r && is_html r then
            let found := _extract (text r) in
            if truthy_opt (fst found) || truthy_opt (snd found)
            then write_back idx found;; ret true
            else try_suffixes idx base rest
          else try_suffixes idx base rest
      | RequestException => try_suffixes idx base rest
      | OtherException => raise
      end
  end.

Definition _try_plain (idx : cell) (base : string) : M bool :=
  try_suffixes idx base [""; "/impressum"; "/kontakt"].

(** [except Exception: pass] swallows whatever the browser raises. *)
Definition _try_selenium (idx : cell) (base : string) : M unit :=
  p <- driver_get base;;
  match p with
  | PageSource html =>
      emit (Sleep 2000);;
      write_back idx (_extract html)
  | WebDriverException => ret tt
  | PageSourceError => emit (Sleep 2000)
  end.

(** The mask of [_scrape_missing]. *)
Definition mask (r : operator) : bool :=
  (isna (email r) || is_empty_str (email r))
  && (isna (phone r) || is_empty_str (phone r))
  && notna (website r).

Definition base_url (r : operator) : string :=
  let base := rstrip_slash (Py.str (website r)) in
  if startswith "http" base then base else ("https://" ++ base)%string.

(** One turn of the loop over [subset.iterrows()]. *)
Definition scrape_row (driver : bool) (e : cell * operator) : M unit :=
  let base := base_url (snd e) in
  found <- _try_plain (fst e) base;;
  if found then ret tt
  else
    when driver (_try_selenium (fst e) base);;
    emit (Sleep 1500).

Fixpoint scrape_rows (driver : bool) (subset : table) : M unit :=
  match subset with
  | [] => ret tt
  | e :: rest => scrape_row driver e;; scrape_rows driver rest
  end.

(** The optional browser session: [true] when a driver was created. *)
Definition start_driver (selenium : bool) : M bool :=
  if selenium then
    if chrome_available w then emit ChromeStarted;; ret true
    else emit ChromeUnavailable;; ret false
  else ret false.

Definition _scrape_missing (selenium : bool) : M unit :=
  fun st =>
    let subset := filter (fun e => mask (snd e)) (frame st) in
    (driver <- start_driver selenium;;
     scrape_rows driver subset;;
     when driver (emit DriverQuit)) st.

End Pass.

(* ---------------------------------------------------------------------- *)
(** *** The workbook *)

(** [range(0, stop, step)] for positive [step]. *)
Definition py_range (stop step : Z) : list Z :=
  map (fun k => Z.of_nat k * step)%Z
      (seq 0 (Z.to_nat ((stop + step - 1) / step))).

(** [df.iloc[i:j]] for [0 <= i <= j]. *)
Definition iloc {A} (df : list A) (i j : Z) : list A :=
  firstn (Z.to_nat (j - i)) (skipn (Z.to_nat i) df).

Definition sheet_name (i : Z) : string :=
  ("contacts_" ++
   NilZero.string_of_uint (N.to_uint (Z.to_N (i / MAXROWS_XLSX + 1))))%string.

(** The sheets written by [_save_xlsx], name and rows, in order. *)
Definition _save_xlsx (df : table) : list (string * table) :=
  map (fun i => (sheet_name i, iloc df i (i + MAXROWS_XLSX)))
      (py_range (Z.of_nat (List.length df)) MAXROWS_XLSX).

(** A row of the frame returned by [build], the column [website]
    dropped. *)
Record contact : Type := mkContact {
  c_market_actor_id : cell;
  c_market_actor_name : cell;
  c_email : cell;
  c_phone : cell
}.

Definition drop_website (r : operator) : contact :=
  mkContact (market_actor_id r) (market_actor_name r) (email r) (phone r).

(** Everything [build] leaves behind. *)
Record built : Type := mkBuilt {
  contacts : result (list contact);
  workbook : list (string * table);
  diagnostics : list diag;
  effects : list event
}.

Definition build (market_csv : feed) (scrape selenium : bool) (w : world)
  : built :=
  let '(df, log) := _deduplicate market_csv in
  let '(r, st) :=
    (if scrape then _scrape_missing w selenium else ret tt)
      (mkState df []) in
  match r with
  | Done _ =>
      mkBuilt (Done (map (fun e => drop_website (snd e)) (frame st)))
              (_save_xlsx (frame st)) log (trace st)
  | Raised => mkBuilt Raised [] log (trace st)
  end.

End ContactBuilder.

(* ------------------------------------------------------------------------ *)
(** ** plant_builder.py *)

Module PlantBuilder.

Definition CHUNKSIZE : Z := 250000.

(** A coordinate cell: [None]/NaN, the empty string of the location map,
    or a number. *)
Inductive coord : Type :=
| NoCoord
| CoordStr (s : string)
| CoordNum (q : Q).

(** One row of the plants table, over the final column names. *)
Record plant : Type := mkPlant {
  plant_id : string;
  plant_name : string;
  postal_code : string;
  commissioning_year : Z;
  capacity_el_kW : Z;
  capacity_gas_m3_h : Z;
  operator_id : string;
  latitude : coord;
  longitude : coord;
  plant_type : string
}.

Inductive diag : Type :=
| NoRequiredColumns
| ErrorProcessing
| ErrorReadingLocations.

Definition biomass_mapping : list (string * string) :=
  [ ("EinheitMastrNummer", "unit_id");
    ("NameStromerzeugungseinheit", "plant_name");
    ("Postleitzahl", "postal_code");
    ("Inbetriebnahmedatum", "commissioning_year");
    ("Nettonennleistung", "capacity_el_kw");
    ("AnlagenbetreiberMastrNummer", "operator_id");
    ("Laengengrad", "longitude_raw");
    ("Breitengrad", "latitude_raw") ].

Definition gas_mapping : list (string * string) :=
  [ ("EinheitMastrNummer", "unit_id");
    ("NameGaserzeugungseinheit", "plant_name");
    ("Postleitzahl", "postal_code");
    ("Inbetriebnahmedatum", "commissioning_year");
    ("Erzeugungsleistung", "capacity_gas_m3_per_h");
    ("AnlagenbetreiberMastrNummer", "operator_id");
    ("Laengengrad", "longitude_raw");
    ("Breitengrad", "latitude_raw") ].

Definition required_cols : list string :=
  [ "unit_id"; "plant_name"; "postal_code"; "commissioning_year";
    "capacity_el_kw"; "capacity_gas_m3_per_h"; "operator_id" ].

(** [astype(int)] on a finite float: the fraction is cut off. *)
Definition trunc (q : Q) : Z := Z.quot (Qnum q) (Zpos (Qden q)).

(** [chunk.unit_id.astype(str).str.replace(" ", "_").str.lower()] *)
Definition to_plant_id (unit_id : cell) : string :=
  lower (replace_char " "%char "_"%char (Py.str unit_id)).

(** [astype(str).str.strip().str.replace(r"\s+", "", regex=True)] *)
Definition compact (c : cell) : string :=
  remove_spaces (strip (Py.str c)).

Section Numeric.

(** [pd.to_numeric(x, errors="coerce")] on one string: the number read,
    [None] for NaN.  Infinite values are outside the model. *)
Variable to_numeric : string -> option Q.

(** [pd.to_numeric(col, errors="coerce").fillna(0).astype(int)] *)
Definition to_int (c : cell) : Z :=
  match c with
  | NaN => 0
  | Str s => match to_numeric s with
             | Some q => trunc q
             | None => 0
             end
  end.

Definition to_coord (c : cell) : coord :=
  match c with
  | NaN => NoCoord
  | Str s => match to_numeric s with
             | Some q => CoordNum q
             | None => NoCoord
             end
  end.

(** A cell of the chunk once the absent required columns are filled
    with the empty string and [chunk = chunk[required_cols].copy()] is
    taken. *)
Definition field (chunk : Frame.t) (col : string) (row : list cell)
  : cell :=
  match Frame.get chunk col row with
  | Some c => c
  | None => Str ""
  end.

(** The location columns.  The test is made on the columns of the
    chunk after the selection of [required_cols]. *)
Definition locate (chunk : Frame.t) (loc_map : list string)
  (row : list cell) : coord * coord :=
  let selected := Frame.mk required_cols [] in
  if Frame.has_column "latitude_raw" selected
     && Frame.has_column "longitude_raw" selected
  then (to_coord (field chunk "latitude_raw" row),
        to_coord (field chunk "longitude_raw" row))
  else
    if existsb (String.eqb (Py.str (field chunk "unit_id" row))) loc_map
    then (CoordStr "", CoordStr "")
    else (NoCoord, NoCoord).

Definition to_plant (chunk : Frame.t) (loc_map : list string)
  (has_el : bool) (row : list cell) : plant :=
  let '(lat, lon) := locate chunk loc_map row in
  {| plant_id := to_plant_id (field chunk "unit_id" row);
     plant_name :=
       squeeze_spaces (strip (Py.str (field chunk "plant_name" row)));
     postal_code := compact (field chunk "postal_code" row);
     commissioning_year :=
       to_int (Str (take 4 (Py.str (field chunk "commissioning_year" row))));
     capacity_el_kW := to_int (field chunk "capacity_el_kw" row);
     capacity_gas_m3_h := to_int (field chunk "capacity_gas_m3_per_h" row);
     operator_id := compact (field chunk "operator_id" row);
     latitude := lat;
     longitude := lon;
     plant_type := if has_el then "biogas" else "gas" |}.

(** The body of the chunk loop of [_enrich]: [None] when the chunk is
    skipped after the diagnostic, otherwise the frame yielded. *)
Definition enrich_chunk (loc_map : list string) (has_el : bool)
  (chunk : Frame.t) : option (list plant) :=
  let '(column_mapping, chunk) :=
    if has_el
    then (biomass_mapping,
          Frame.assign "capacity_gas_m3_per_h" (Str "0") chunk)
    else (gas_mapping,
          Frame.assign "capacity_el_kw" (Str "0") chunk) in
  let chunk := Frame.rename column_mapping chunk in
  let available_cols :=
    filter (fun col => Frame.has_column col chunk) required_cols in
  match available_cols with
  | [] => None
  | _ => Some (map (to_plant chunk loc_map has_el) (Frame.rows chunk))
  end.

(** The generator [_enrich]: the frames it yields, in order, and the
    diagnostics.  An exception ends the loop; the handler yields one
    empty frame. *)
Fixpoint _enrich (src : feed) (loc_map : list string) (has_el : bool)
  : list (list plant) * list diag :=
  match src with
  | [] => ([], [])
  | Chunk chunk :: rest =>
      if Frame.empty chunk then _enrich rest loc_map has_el
      else
        let '(dfs, log) := _enrich rest loc_map has_el in
        match enrich_chunk loc_map has_el chunk with
        | None => (dfs, NoRequiredColumns :: log)
        | Some df => (df :: dfs, log)
        end
  | _ :: _ => ([[]], [ErrorProcessing])
  end.

(** The location map of [build]: the identifiers of the location
    extract; empty when reading it raises. *)
Fixpoint location_ids (loc_csv : feed) : option (list string) :=
  match loc_csv with
  | [] => Some []
  | Chunk chunk :: rest =>
      match location_ids rest with
      | None => None
      | Some ids =>
          Some (flat_map (fun row =>
                            match Frame.get chunk "MastrNummer" row with
                            | Some (Str s) => [s]
                            | _ => []
                            end)
                         (if Frame.empty chunk then []
                          else Frame.rows chunk) ++ ids)
      end
  | _ :: _ => None
  end.

Definition build (biomass_csv gas_csv loc_csv : feed)
  : list plant * list diag :=
  let '(loc_map, loc_log) :=
    match location_ids loc_csv with
    | Some ids => (ids, [])
    | None => ([], [ErrorReadingLocations])
    end in
  let '(biomass_dfs, biomass_log) := _enrich biomass_csv loc_map true in
  let '(gas_dfs, gas_log) := _enrich gas_csv loc_map false in
  (List.concat (biomass_dfs ++ gas_dfs), loc_log ++ biomass_log ++ gas_log).

End Numeric.

(** The column mapping of the branch taken for a source kind, and the
    capacity column which that branch sets to the constant ["0"]. *)
Definition mapping (has_el : bool) : list (string * string) :=
  if has_el then biomass_mapping else gas_mapping.

Definition constant_column (has_el : bool) : string :=
  if has_el then "capacity_gas_m3_per_h" else "capacity_el_kw".


(** Plant identifier and operator identifier of an output row, and the
    same pair computed from a row of the extract. *)
Definition ids (p : plant) : string * string := (plant_id p, operator_id p).


(** The rows of the chunks the loop of [_enrich] reaches: those before
    the first read that raises. *)
Fixpoint fed_rows (src : feed) : list (Frame.t * list cell) :=
  match src with
  | Chunk chunk :: rest =>
      map (pair chunk) (if Frame.empty chunk then [] else Frame.rows chunk)
      ++ fed_rows rest
  | _ => []
  end.

(** Reading of a plain decimal numeral, on which [pd.to_numeric] agrees;
    used to run the pipeline on concrete extracts. *)
Fixpoint digits_value (acc : Z) (s : string) : option Z :=
  match s with
  | EmptyString => Some acc
  | String c r =>
      if isdigit c
      then digits_value (10 * acc + Z.of_nat (nat_of_ascii c - 48)) r
      else None
  end.

Definition decimal_numeric (s : string) : option Q :=
  match s with
  | EmptyString => None
  | _ => option_map inject_Z (digits_value 0 s)
  end.

End PlantBuilder.

(* ------------------------------------------------------------------------ *)
(** ** scripts/main.py *)

Module Main.

Import ContactBuilder PlantBuilder.

(** A row of [plants.merge(contacts, left_on="operator_id",
    right_on="market_actor_id", how="left")]: the plant row and the
    columns of the operator side. *)
Record joined : Type := mkJoined {
  left : plant;
  j_market_actor_id : cell;
  j_market_actor_name : cell;
  j_email : cell;
  j_phone : cell
}.

Definition key_matches (p : plant) (c : contact) : bool :=
  cell_eqb (c_market_actor_id c) (Str (operator_id p)).

Definition matched (p : plant) (c : contact) : joined :=
  mkJoined p (c_market_actor_id c) (c_market_actor_name c)
           (c_email c) (c_phone c).

Definition unmatched (p : plant) : joined := mkJoined p NaN NaN NaN NaN.

(** The left join: the plant rows in their order, each with every
    operator row of the same key, or once with nulls when there is
    none. *)
Definition merge (plants : list plant) (contacts : list contact)
  : list joined :=
  flat_map (fun p =>
              match filter (key_matches p) contacts with
              | [] => [unmatched p]
              | ms => map (matched p) ms
              end) plants.

(** [build_database] after the extracts are fetched: the joined table,
    or nothing when the contact builder raised. *)
Definition build_database (to_numeric : string -> option Q)
  (market_actors biomass gas_producer locations : feed)
  (scrape selenium : bool) (w : world) : result (list joined) :=
  match contacts (ContactBuilder.build market_actors scrape selenium w) with
  | Done cs =>
      Done (merge (fst (PlantBuilder.build to_numeric biomass gas_producer
                                           locations)) cs)
  | Raised => Raised
  end.

End Main.

(* ------------------------------------------------------------------------ *)
(** ** mastr_fetcher.py *)

Module Fetcher.

(** What the fetcher does to the database library and to the file system,
    in the order it happens.  Destinations are file names inside the
    working directory [self.tmp]. *)
Inductive event : Type :=
| Download (method : string)
| DownloadFailed (method : string)
| ToCsv (tables : list string)
| ToCsvFailed (tables : list string)
| ExportTable (table_name dest : string)
| ExportFailed (table_name : string)
| Touch (dest : string)
| WriteHeaders (dest : string) (headers : list string)
| Copy (source dest : string).

(** [result_paths]: dataset key and file name, in insertion order. *)
Definition paths : Type := list (string * string).

Definition dict_has (k : string) (d : paths) : bool :=
  existsb (fun e => String.eqb (fst e) k) d.

(** [d[k] = v] *)
Fixpoint dict_set (k v : string) (d : paths) : paths :=
  match d with
  | [] => [(k, v)]
  | (k', v') :: r =>
      if String.eqb k' k then (k, v) :: r else (k', v') :: dict_set k v r
  end.

Fixpoint dict_get (k : string) (d : paths) : option string :=
  match d with
  | [] => None
  | (k', v) :: r => if String.eqb k' k then Some v else dict_get k r
  end.

(** The surroundings of the fetcher: whether API credentials were
    accepted, whether the download and the CSV export of the library
    return, the tables of the local database ([None] when the query
    raises), whether [export_table] returns for a table (it may depend on
    what happened before), the [dataversion-*] directories with their
    modification times, and which files a directory holds.  Creating,
    copying and writing files inside the working directory is taken to
    succeed; exporting a table is the one write that may raise. *)
Record world : Type := mkWorld {
  api : bool;
  download_ok : string -> bool;
  to_csv_ok : bool;
  available_tables : option (list string);
  export_ok : list event -> string -> bool;
  dataversion_dirs : list (string * Z);
  source_exists : string -> string -> bool
}.

Inductive outcome : Type :=
| Returned (result_paths : paths)
| Raises.

Definition state : Type := (paths * list event)%type.

(** [f"{dataset_key}.csv"] *)
Definition csv_name (dataset_key : string) : string :=
  (dataset_key ++ ".csv")%string.

Definition log (e : event) (st : state) : state := (fst st, snd st ++ [e]).

Definition record (k v : string) (st : state) : state :=
  (dict_set k v (fst st), snd st).

Definition table_mapping : list (string * string) :=
  [ ("biomass", "biomass.csv");
    ("biomass_extended", "biomass.csv");
    ("biomass_eeg", "biomass.csv");
    ("gas", "gas.csv");
    ("gas_producer", "gas.csv");
    ("market", "market.csv");
    ("market_actors", "market.csv");
    ("location", "location.csv");
    ("locations_basic", "location.csv");
    ("locations_extended", "location.csv");
    ("Biomasse", "biomass.csv");
    ("Gas", "gas.csv");
    ("Marktakteure", "market.csv");
    ("Lokationen", "location.csv") ].

Definition file_to_dataset : list (string * string) :=
  [ ("biomass.csv", "biomass");
    ("gas.csv", "gas_producer");
    ("market.csv", "market_actors");
    ("location.csv", "locations") ].

Definition dataset_priorities : list (string * list string) :=
  [ ("biomass", ["biomass_extended"; "biomass_eeg"; "biomass"; "Biomasse"]);
    ("gas_producer", ["gas_producer"; "gas"; "Gas"]);
    ("market_actors", ["market_actors"; "market"; "Marktakteure"]);
    ("locations",
     ["locations_extended"; "locations_basic"; "location"; "Lokationen"]) ].

Definition market_headers : list string :=
  ["MastrNummer"; "Firmenname"; "Email"; "Telefon"; "Webseite"].

Definition location_headers : list string :=
  ["MastrNummer"; "NameDerTechnischenLokation"; "Laengengrad"; "Breitengrad"].

Section World.

Variable w : world.

(** [export_table(table_name, dest)] inside its [try]: whether it
    returned, and the state after it. *)
Definition export_table (table_name dest : string) (st : state)
  : bool * state :=
  if export_ok w (snd st) table_name
  then (true, log (ExportTable table_name dest) st)
  else (false, log (ExportFailed table_name) st).

(** The inner loop over the tables of one dataset, in priority order:
    [true] when a table was exported. *)
Fixpoint export_first (available : list string) (dataset_key : string)
  (table_priority : list string) (st : state) : bool * state :=
  match table_priority with
  | [] => (false, st)
  | table_name :: rest =>
      if existsb (String.eqb table_name) available then
        let '(done, st') :=
          export_table table_name (csv_name dataset_key) st in
        if done then (true, record dataset_key (csv_name dataset_key) st')
        else export_first available dataset_key rest st'
      else export_first available dataset_key rest st
  end.

(** One turn of the loop over [dataset_priorities]. *)
Definition export_dataset (available : list string)
  (entry : string * list string) (st : state) : state :=
  let '(dataset_key, table_priority) := entry in
  let '(exported, st') :=
    export_first available dataset_key table_priority st in
  if exported then st'
  else record dataset_key (csv_name dataset_key)
              (log (Touch (csv_name dataset_key)) st').

(** One turn of the loop kept for backwards compatibility. *)
Definition legacy_export (table_name : string) (st : state) : state :=
  match Frame.lookup table_mapping table_name with
  | Some filename =>
      match Frame.lookup file_to_dataset filename with
      | Some dataset_key =>
          if negb (String.eqb dataset_key "")
             && negb (dict_has dataset_key (fst st))
          then
            let '(done, st') := export_table table_name filename st in
            if done then record dataset_key filename st' else st'
          else st
      | None => st
      end
  | None => st
  end.

(** One turn of the final loop over the four dataset keys. *)
Definition fill_missing (dataset_key : string) (st : state) : state :=
  if dict_has dataset_key (fst st) then st
  else if String.eqb dataset_key "market_actors" then
    record dataset_key (csv_name dataset_key)
           (log (WriteHeaders (csv_name dataset_key) market_headers) st)
  else if String.eqb dataset_key "locations" then
    record dataset_key (csv_name dataset_key)
           (log (WriteHeaders (csv_name dataset_key) location_headers) st)
  else
    record dataset_key (csv_name dataset_key)
           (log (Touch (csv_name dataset_key)) st).

(** [_manual_export], from the state it is entered with: [None] when
    listing the tables raises. *)
Definition _manual_export (st : state) : option state :=
  match available_tables w with
  | None => None
  | Some available =>
      let st := fold_left (fun st entry => export_dataset available entry st)
                          dataset_priorities st in
      let st := fold_left (fun st table_name => legacy_export table_name st)
                          available st in
      Some (fold_left (fun st dataset_key => fill_missing dataset_key st)
                      ["market_actors"; "biomass"; "gas_producer";
                       "locations"] st)
  end.

Definition _create_empty_files (st : state) : state :=
  let st :=
    fold_left (fun st dataset_key =>
                 record dataset_key (csv_name dataset_key)
                        (log (Touch (csv_name dataset_key)) st))
              ["biomass"; "gas_producer"] st in
  let st := record "market_actors" "market_actors.csv"
              (log (WriteHeaders "market_actors.csv"
                      (market_headers ++ ["Personenart"; "Rechtsform"; "Land";
                                          "Postleitzahl"; "Ort"])) st) in
  record "locations" "locations.csv"
         (log (WriteHeaders "locations.csv" location_headers) st).

Definition file_mapping : list (string * string) :=
  [ ("market_actors", "bnetza_mastr_market_actors_raw.csv");
    ("biomass", "bnetza_mastr_biomass_raw.csv");
    ("gas_producer", "bnetza_mastr_gas_producer_raw.csv");
    ("locations", "bnetza_mastr_locations_extended_raw.csv") ].

(** [max(dirs, key=mtime)]: the first directory of greatest time. *)
Fixpoint latest (best : string * Z) (dirs : list (string * Z))
  : string * Z :=
  match dirs with
  | [] => best
  | d :: rest => if (snd best <? snd d)%Z then latest d rest
                 else latest best rest
  end.

(** One turn of the loop over [file_mapping]. *)
Definition copy_file (latest_dir : string) (entry : string * string)
  (st : state) : state :=
  let '(key, filename) := entry in
  if source_exists w latest_dir filename
  then record key (csv_name key)
              (log (Copy (latest_dir ++ "/" ++ filename)%string
                         (csv_name key)) st)
  else record key (csv_name key) (log (Touch (csv_name key)) st).

Definition _copy_exported_files (st : state) : state :=
  match dataversion_dirs w with
  | [] => _create_empty_files st
  | d :: rest =>
      let latest_dir := fst (latest d rest) in
      fold_left (fun st entry => copy_file latest_dir entry st)
                file_mapping st
  end.

(** [fetch_all(method, export_csv)]: what it returns or that it raises,
    and what it did. *)
Definition fetch_all (method : string) (export_csv : bool)
  : outcome * list event :=
  let method :=
    if String.eqb (lower method) "api" && negb (api w) then "bulk"
    else method in
  let library_method :=
    if String.eqb (lower method) "bulk" then "bulk" else "API" in
  if negb (download_ok w library_method)
  then (Raises, [DownloadFailed library_method])
  else
    let st : state := ([], [Download library_method]) in
    if negb export_csv then (Returned [], snd st)
    else
      let tables_to_export := ["biomass"; "gas_producer"] in
      if to_csv_ok w then
        let st := _copy_exported_files (log (ToCsv tables_to_export) st) in
        (Returned (fst st), snd st)
      else
        match _manual_export (log (ToCsvFailed tables_to_export) st) with
        | Some st => (Returned (fst st), snd st)
        | None => (Raises, snd st ++ [ToCsvFailed tables_to_export])
        end.

End World.

End Fetcher.

(* ------------------------------------------------------------------------ *)
(** ** Concrete extracts *)

Module Extracts.

Import ContactBuilder.

Definition market_header : list string :=
  ["MastrNummer"; "Firmenname"; "Email"; "Telefon"; "Webseite"].

(** Two sightings of operator OP1, then an operator without any contact
    field filled in (the CSV line [OP9,Leer GmbH,,,]). *)
Definition market_actors : feed :=
  [ Chunk (Frame.mk market_header
             [ [Str "OP1"; Str "Hof A"; Str "a@x.de"; NaN; NaN];
               [Str "OP1"; Str "Hof B"; Str "b@x.de"; NaN; NaN] ]);
    Chunk (Frame.mk market_header
             [ [Str "OP9"; Str "Leer GmbH"; NaN; NaN; NaN] ]) ].

Definition op1 : operator :=
  mkOperator (Str "OP1") (Str "Hof A") (Str "a@x.de") NaN NaN.

Definition op9 : operator :=
  mkOperator (Str "OP9") (Str "Leer GmbH") NaN NaN NaN.

(** An extract without the columns [Telefon] and [Webseite]; the e-mail
    field of its only line is empty. *)
Definition market_actors_no_website : feed :=
  [ Chunk (Frame.mk ["MastrNummer"; "Firmenname"; "Email"]
             [ [Str "OP7"; Str "Hof C"; NaN] ]) ].

Definition op7 : operator :=
  mkOperator (Str "OP7") (Str "Hof C") NaN (Str "") (Str "").

(** One operator that has a website and neither e-mail nor phone. *)
Definition market_actors_website : feed :=
  [ Chunk (Frame.mk market_header
             [ [Str "OP3"; Str "Hof D"; NaN; NaN; Str "example.com"] ]) ].

Definition op3 : operator :=
  mkOperator (Str "OP3") (Str "Hof D") NaN NaN (Str "example.com").

Definition html_page : response :=
  mkResponse true (Some "text/html; charset=utf-8")
             "<html><body>Kontakt: contact@example.com</body></html>".

(** Every page answers with an imprint that shows an address; no browser
    is installed. *)
Definition friendly_web : world :=
  mkWorld (fun _ _ => Response html_page)
          (fun _ _ => WebDriverException) false.

(** The HTTP library raises something that is not a
    [requests.RequestException]; the browser can be started. *)
Definition hostile_web : world :=
  mkWorld (fun _ _ => OtherException)
          (fun _ _ => WebDriverException) true.

(** Every request fails with a [requests.RequestException]; the browser
    can be started and renders nothing useful. *)
Definition silent_web : world :=
  mkWorld (fun _ _ => RequestException)
          (fun _ _ => PageSource "<html></html>") true.

(** The plant extract of the end-to-end scenario: two lines with the unit
    identifier A1. *)
Definition biomass_a1 : feed :=
  [ Chunk (Frame.mk ["EinheitMastrNummer"; "AnlagenbetreiberMastrNummer";
                     "Nettonennleistung"]
             [ [Str "A1"; Str "OP1"; Str "500"];
               [Str "A1"; Str "OP2"; Str "999"] ]) ].




(** One operator with an address and one with a website only. *)
Definition market_actors_mixed : feed :=
  [ Chunk (Frame.mk market_header
             [ [Str "OP1"; Str "Hof A"; Str "a@x.de"; NaN; NaN];
               [Str "OP3"; Str "Hof D"; NaN; NaN; Str "example.com"] ]) ].

(** A table of 1,000,001 rows. *)
Definition million_and_one : table :=
  repeat (Str "OP1", op1) (Z.to_nat 1000001).


(** A database whose CSV export raises; it holds two biomass tables and
    one gas table, and the extended biomass table cannot be exported. *)
Definition broken_export : Fetcher.world :=
  Fetcher.mkWorld false (fun _ => true) false
    (Some ["biomass"; "biomass_extended"; "gas"])
    (fun _ table_name => negb (String.eqb table_name "biomass_extended"))
    [] (fun _ _ => false).

End Extracts.

(* ------------------------------------------------------------------------ *)
(** ** Vocabulary of the properties *)

Module Props.

Import ContactBuilder PlantBuilder Main.

(** The test that singles out the retained sightings of key [k]. *)
Definition sighting (k : cell) (r : operator) : bool :=
  retained r && cell_eqb (market_actor_id r) k.

(** What the dict holds once the rows [seen] went through the loop. *)
Record first_wins (seen : list operator) (store : table) : Prop := {
  fw_nodup : NoDup (map fst store);
  fw_first : forall k r, In (k, r) store ->
             k = market_actor_id r /\ find (sighting k) seen = Some r;
  fw_all : forall r, In r seen -> retained r = true ->
           In (market_actor_id r) (map fst store)
}.

(** Creating or closing the browser session. *)
Definition session_event (e : event) : bool :=
  match e with
  | ChromeStarted | ChromeUnavailable | DriverQuit => true
  | _ => false
  end.

Definition quiet (e : event) : Prop := session_event e = false.

(** A row before and after: label, identifier, name and website are the
    same, and the whole row is the same unless its label is in [idxs]. *)
Definition row_frame (idxs : list cell) (e e' : cell * operator) : Prop :=
  fst e' = fst e
  /\ market_actor_id (snd e') = market_actor_id (snd e)
  /\ market_actor_name (snd e') = market_actor_name (snd e)
  /\ website (snd e') = website (snd e)
  /\ (In (fst e) idxs \/ e' = e).

Definition table_frame (idxs : list cell) (df df' : table) : Prop :=
  Forall2 (row_frame idxs) df df'.

(** The two writers leave the other columns alone. *)
Definition contact_only (upd : operator -> operator) : Prop :=
  forall r, market_actor_id (upd r) = market_actor_id r
            /\ market_actor_name (upd r) = market_actor_name r
            /\ website (upd r) = website r.

(** A computation that changes the frame only inside [idxs] and only
    adds events that neither open nor close the session. *)
Definition respects (idxs : list cell) {A} (m : M A) : Prop :=
  forall st,
    table_frame idxs (frame st) (frame (snd (m st)))
    /\ exists evs, trace (snd (m st)) = trace st ++ evs /\ Forall quiet evs.

(** What the pass leaves of a row: identifier, name and website, and the
    whole row when the mask did not select it. *)
Definition row_kept (e e' : cell * operator) : Prop :=
  market_actor_id (snd e') = market_actor_id (snd e)
  /\ market_actor_name (snd e') = market_actor_name (snd e)
  /\ website (snd e') = website (snd e)
  /\ (mask (snd e) = true \/ e' = e).

(** The row holds an e-mail address or a phone number. *)
Definition has_contact (r : operator) : bool :=
  negb (isna (email r) || is_empty_str (email r))
  || negb (isna (phone r) || is_empty_str (phone r)).



(** The position at which [df[col] = v] writes. *)
Definition assign_index (col : string) (df : Frame.t) : nat :=
  match Frame.index_of col (Frame.columns df) with
  | Some i => i
  | None => List.length (Frame.columns df)
  end.

(** The chunk as the loop body sees it after the constant column is set
    and the columns are renamed. *)
Definition normalised (has_el : bool) (chunk : Frame.t) : Frame.t :=
  Frame.rename (mapping has_el)
               (Frame.assign (constant_column has_el) (Str "0") chunk).

End Props.

(* ------------------------------------------------------------------------ *)
(** ** Vocabulary of further properties *)

Module MoreProps.

Import ContactBuilder PlantBuilder Main.

(** Every character of [s] satisfies [p]. *)
Definition all_chars (p : ascii -> bool) (s : string) : Prop :=
  Forall (fun c => p c = true) (list_ascii_of_string s).

(** [m] stands somewhere in [s]. *)
Definition occurs_in (m s : string) : Prop :=
  exists pre post, s = (pre ++ m ++ post)%string.

(** The words of [EMAIL_RE]: a local part, the at sign, a domain, a dot
    and at least two letters. *)
Definition email_shape (m : string) : Prop :=
  exists loc dom tld,
    m = (loc ++ "@" ++ dom ++ "." ++ tld)%string
    /\ loc <> "" /\ all_chars local_char loc
    /\ dom <> "" /\ all_chars domain_char dom
    /\ (2 <= String.length tld)%nat /\ all_chars isalpha tld.


(** The requests and delays that working on one selected row can cause:
    the three plain fetches, the navigation of the browser and its settle
    time when there is a driver, and the delay after the row. *)
Definition row_events (driver : bool) (r : operator) : list event :=
  map (fun suf => HttpGet (base_url r ++ suf)%string)
      [""; "/impressum"; "/kontakt"]
  ++ (if driver then [DriverGet (base_url r); Sleep 2000] else [])
  ++ [Sleep 1500].

(** The event belongs to the work on some row of [df] that the mask
    selects. *)
Definition from_selected_row (driver : bool) (df : table) (ev : event)
  : Prop :=
  exists e, In e df /\ mask (snd e) = true
            /\ In ev (row_events driver (snd e)).

(** A computation that only adds events satisfying [P]. *)
Definition emits (P : event -> Prop) {A} (m : M A) : Prop :=
  forall st,
    exists evs, trace (snd (m st)) = trace st ++ evs /\ Forall P evs.

(** Events of the plain tier and the delay after a row. *)
Definition plain_event (ev : event) : bool :=
  match ev with
  | HttpGet _ => true
  | Sleep ms => (ms =? 1500)%Z
  | ChromeUnavailable => true
  | _ => false
  end.





(** Shapes of the cleaned identifiers of a plant row. *)
Definition lowercase_no_blank (s : string) : Prop :=
  all_chars (fun c => negb (isupper c) && negb (Ascii.eqb c " "%char)) s.

Definition no_space (s : string) : Prop :=
  all_chars (fun c => negb (isspace c)) s.

Definition clean_ids (p : plant) : Prop :=
  lowercase_no_blank (plant_id p)
  /\ no_space (operator_id p)
  /\ no_space (postal_code p).

(** Both coordinates are missing, or both are the empty string of the
    location map. *)
Definition blank_coordinates (p : plant) : Prop :=
  (latitude p = NoCoord /\ longitude p = NoCoord)
  \/ (latitude p = CoordStr "" /\ longitude p = CoordStr "").

(** The rows that one chunk contributes to the plants table: none when it
    is empty, otherwise one for each of its lines, read after the constant
    capacity column is set and the columns are renamed. *)
Definition yielded (to_numeric : string -> option Q)
  (loc_map : list string) (has_el : bool) (chunk : Frame.t) : list plant :=
  if Frame.empty chunk then []
  else map (fun row =>
              to_plant to_numeric (Props.normalised has_el chunk) loc_map
                has_el
                (Frame.set_nth
                   (Props.assign_index (constant_column has_el) chunk)
                   (Str "0") row))
           (Frame.rows chunk).

(** The four files of the working directory that the pipeline reads. *)
Definition dataset_paths : Fetcher.paths :=
  [ ("biomass", "biomass.csv");
    ("gas_producer", "gas_producer.csv");
    ("market_actors", "market_actors.csv");
    ("locations", "locations.csv") ].

(** What the manual export may do: export a table of a dataset's priority
    list to that dataset's file, fail to export a table, or create a
    dataset's file empty. *)
Definition manual_event (e : Fetcher.event) : Prop :=
  match e with
  | Fetcher.ExportTable table_name dest =>
      exists entry, In entry Fetcher.dataset_priorities
                    /\ dest = Fetcher.csv_name (fst entry)
                    /\ In table_name (snd entry)
  | Fetcher.ExportFailed _ => True
  | Fetcher.Touch dest =>
      exists entry, In entry Fetcher.dataset_priorities
                    /\ dest = Fetcher.csv_name (fst entry)
  | _ => False
  end.

End MoreProps.

(* ------------------------------------------------------------------------ *)
(** ** The operator table *)

Section CellFacts.

Lemma cell_eqb_eq (a b : cell) : cell_eqb a b = true <-> a = b.
Proof.
  destruct a as [|s], b as [|u]; simpl; split; intro H;
    try reflexivity; try discriminate.
  - apply String.eqb_eq in H. now subst.
  - inversion H. apply String.eqb_refl.
Qed.

Lemma cell_eqb_refl (a : cell) : cell_eqb a a = true.
Proof. now apply cell_eqb_eq. Qed.

Lemma cell_eqb_neq (a b : cell) : cell_eqb a b = false <-> a <> b.
Proof.
  split; intro H.
  - intro E. apply cell_eqb_eq in E. congruence.
  - destruct (cell_eqb a b) eqn:E; [|reflexivity].
    apply cell_eqb_eq in E. contradiction.
Qed.

End CellFacts.

Section FindFacts.

Variable A : Type.
Variable p : A -> bool.

Lemma find_append (l1 l2 : list A) :
  find p (l1 ++ l2) =
  match find p l1 with
  | Some x => Some x
  | None => find p l2
  end.
Proof.
  induction l1 as [|a l1 IH]; simpl; [reflexivity|].
  destruct (p a); [reflexivity | exact IH].
Qed.

Lemma find_absent (l : list A) :
  (forall x, In x l -> p x = false) -> find p l = None.
Proof.
  induction l as [|a l IH]; simpl; intro H; [reflexivity|].
  rewrite (H a (or_introl eq_refl)). apply IH.
  intros x Hx. apply H. now right.
Qed.

Lemma NoDup_snoc (l : list A) (a : A) :
  NoDup l -> ~ In a l -> NoDup (l ++ [a]).
Proof.
  induction l as [|b l IH]; simpl; intros Hnd Hfresh.
  - constructor; [intros [] | constructor].
  - inversion Hnd as [|? ? Hb Hl]; subst. constructor.
    + rewrite in_app_iff. intros [H|[H|[]]]; [contradiction|].
      apply Hfresh. now left.
    + apply IH; [assumption|]. intro H. apply Hfresh. now right.
Qed.

End FindFacts.

Module DedupFacts.

Import ContactBuilder Props.

Lemma has_key_In (k : cell) (store : table) :
  has_key k store = true <-> In k (map fst store).
Proof.
  unfold has_key. rewrite existsb_exists, in_map_iff. split.
  - intros [e [He Hk]]. exists e. apply cell_eqb_eq in Hk. now split.
  - intros [e [Hk He]]. exists e. split; [exact He|]. now apply cell_eqb_eq.
Qed.

(** The guard drops a row only when its three contact cells are empty
    strings, that is, when the chunk had none of the three columns. *)
Lemma retained_false_iff (r : operator) :
  retained r = false
  <-> email r = Str "" /\ phone r = Str "" /\ website r = Str "".
Proof.
  unfold retained. destruct r as [i n e p w]; simpl. split.
  - intro H. apply orb_false_iff in H. destruct H as [H Hw].
    apply orb_false_iff in H. destruct H as [He Hp].
    destruct e as [|e]; [discriminate|]. destruct p as [|p]; [discriminate|].
    destruct w as [|w]; [discriminate|]. simpl in *.
    apply negb_false_iff in He, Hp, Hw.
    apply String.eqb_eq in He, Hp, Hw. now subst.
  - intros (-> & -> & ->). reflexivity.
Qed.

Lemma scan_rows (f : feed) : forall store log,
  fst (scan f store log) = fold_left upsert (fed_rows f) store.
Proof.
  induction f as [|r f IH]; intros store log; simpl; [reflexivity|].
  destruct r as [chunk| |]; simpl; try reflexivity.
  destruct (Frame.empty chunk); simpl; [apply IH|].
  destruct (prepare chunk) as [rows|]; simpl.
  - rewrite fold_left_app. apply IH.
  - apply IH.
Qed.

Lemma deduplicate_rows (f : feed) :
  fst (_deduplicate f) = fold_left upsert (fed_rows f) [].
Proof.
  unfold _deduplicate. rewrite <- (scan_rows f [] []).
  destruct (scan f [] []) as [store log]. simpl.
  now destruct store.
Qed.

Lemma first_wins_nil : first_wins [] [].
Proof.
  split; simpl.
  - constructor.
  - intros k r [].
  - intros r [].
Qed.

Lemma first_wins_step (seen : list operator) (store : table)
  (row : operator) :
  first_wins seen store -> first_wins (seen ++ [row]) (upsert store row).
Proof.
  intros [Hnd Hfirst Hall]. unfold upsert, setdefault.
  destruct (retained row) eqn:Hret; simpl.
  - destruct (has_key (market_actor_id row) store) eqn:Hkey.
    + split; [exact Hnd | |].
      * intros k r Hin. destruct (Hfirst k r Hin) as [Hk Hf].
        split; [exact Hk|]. rewrite find_append, Hf. reflexivity.
      * intros r Hin Hr. apply in_app_or in Hin.
        destruct Hin as [Hin|[<-|[]]]; [now apply Hall|].
        now apply has_key_In.
    + assert (Hfresh : ~ In (market_actor_id row) (map fst store)).
      { intro Hin. apply has_key_In in Hin. congruence. }
      split.
      * rewrite map_app. simpl. now apply NoDup_snoc.
      * intros k r Hin. apply in_app_or in Hin.
        destruct Hin as [Hin|[Heq|[]]].
        -- destruct (Hfirst k r Hin) as [Hk Hf].
           split; [exact Hk|]. rewrite find_append, Hf. reflexivity.
        -- inversion Heq; subst. split; [reflexivity|].
           rewrite find_append.
           rewrite find_absent.
           ++ simpl. unfold sighting. rewrite Hret, cell_eqb_refl.
              reflexivity.
           ++ intros x Hx. unfold sighting.
              destruct (retained x) eqn:Hx'; [simpl|reflexivity].
              apply cell_eqb_neq. intro E. apply Hfresh.
              rewrite <- E. now apply Hall.
      * intros r Hin Hr. rewrite map_app, in_app_iff.
        apply in_app_or in Hin. destruct Hin as [Hin|[<-|[]]].
        -- left. now apply Hall.
        -- right. now left.
  - split; [exact Hnd | |].
    + intros k r Hin. destruct (Hfirst k r Hin) as [Hk Hf].
      split; [exact Hk|]. rewrite find_append, Hf. reflexivity.
    + intros r Hin Hr. apply in_app_or in Hin.
      destruct Hin as [Hin|[<-|[]]]; [now apply Hall | congruence].
Qed.

Lemma first_wins_fold (rows : list operator) : forall seen store,
  first_wins seen store ->
  first_wins (seen ++ rows) (fold_left upsert rows store).
Proof.
  induction rows as [|row rows IH]; intros seen store H; simpl.
  - now rewrite app_nil_r.
  - replace (seen ++ row :: rows) with ((seen ++ [row]) ++ rows)
      by (rewrite <- app_assoc; reflexivity).
    apply IH. now apply first_wins_step.
Qed.

Lemma deduplicate_first_wins (f : feed) :
  first_wins (fed_rows f) (fst (_deduplicate f)).
Proof.
  rewrite deduplicate_rows.
  apply (first_wins_fold (fed_rows f) [] [] first_wins_nil).
Qed.

End DedupFacts.

(* ------------------------------------------------------------------------ *)
(** ** The resolution pass: what it may touch and what it may emit *)

Module PassFacts.

Import ContactBuilder Props.
Local Open Scope scrape_scope.

Lemma row_frame_refl idxs e : row_frame idxs e e.
Proof. repeat split; auto. Qed.

Lemma table_frame_refl idxs df : table_frame idxs df df.
Proof.
  induction df; constructor; [apply row_frame_refl | assumption].
Qed.

Lemma row_frame_trans idxs a b c :
  row_frame idxs a b -> row_frame idxs b c -> row_frame idxs a c.
Proof.
  intros (H1 & H2 & H3 & H4 & H5) (K1 & K2 & K3 & K4 & K5).
  repeat split; try congruence.
  destruct H5 as [H5|H5]; [now left|].
  destruct K5 as [K5|K5]; [left; congruence | right; congruence].
Qed.

Lemma table_frame_trans idxs (a : table) : forall b c,
  table_frame idxs a b -> table_frame idxs b c -> table_frame idxs a c.
Proof.
  induction a as [|x a IH]; intros b c Hab Hbc;
    inversion Hab; subst; inversion Hbc; subst; constructor.
  - eapply row_frame_trans; eassumption.
  - eapply IH; eassumption.
Qed.

Lemma with_email_contact_only v : contact_only (with_email v).
Proof. intro r. now repeat split. Qed.

Lemma with_phone_contact_only v : contact_only (with_phone v).
Proof. intro r. now repeat split. Qed.

Lemma set_at_frame idxs idx upd (df : table) :
  In idx idxs -> contact_only upd ->
  table_frame idxs df (set_at idx upd df).
Proof.
  intros Hin Hupd. unfold set_at.
  induction df as [|e df IH]; simpl; constructor; [|exact IH].
  destruct (cell_eqb (fst e) idx) eqn:E.
  - apply cell_eqb_eq in E. destruct (Hupd (snd e)) as (H1 & H2 & H3).
    repeat split; simpl; auto. left. now rewrite E.
  - apply row_frame_refl.
Qed.

Lemma respects_ret idxs A (a : A) : respects idxs (ret a).
Proof.
  intro st. split; [apply table_frame_refl|].
  exists []. simpl. now rewrite app_nil_r.
Qed.

Lemma respects_raise idxs A : respects idxs (@raise A).
Proof.
  intro st. split; [apply table_frame_refl|].
  exists []. simpl. now rewrite app_nil_r.
Qed.

Lemma respects_bind idxs A B (m : M A) (k : A -> M B) :
  respects idxs m -> (forall a, respects idxs (k a)) ->
  respects idxs (bind m k).
Proof.
  intros Hm Hk st. unfold bind.
  destruct (Hm st) as [Hf [evs [Ht Hq]]].
  destruct (m st) as [[a|] st1]; simpl in *.
  - destruct (Hk a st1) as [Hf' [evs' [Ht' Hq']]]. split.
    + eapply table_frame_trans; eassumption.
    + exists (evs ++ evs'). rewrite Ht', Ht, app_assoc. split; [reflexivity|].
      apply Forall_app. now split.
  - split; [exact Hf|]. now exists evs.
Qed.

Lemma respects_emit idxs e : quiet e -> respects idxs (emit e).
Proof.
  intros He st. split; [apply table_frame_refl|].
  exists [e]. simpl. split; [reflexivity|]. now constructor.
Qed.

Lemma respects_when idxs b (m : M unit) :
  respects idxs m -> respects idxs (when b m).
Proof. destruct b; simpl; [trivial | intros _; apply respects_ret]. Qed.

Lemma respects_set_at idxs idx upd :
  In idx idxs -> contact_only upd ->
  respects idxs (modify (set_at idx upd)).
Proof.
  intros Hin Hupd st. split; simpl.
  - now apply set_at_frame.
  - exists []. now rewrite app_nil_r.
Qed.

Lemma respects_write_back idxs idx found :
  In idx idxs -> respects idxs (write_back idx found).
Proof.
  intro Hin. unfold write_back. apply respects_bind.
  - apply respects_when, respects_set_at;
      [assumption | apply with_email_contact_only].
  - intros _. apply respects_when, respects_set_at;
      [assumption | apply with_phone_contact_only].
Qed.

Section World.

Variable w : world.

Lemma respects_http_get idxs url : respects idxs (http_get w url).
Proof.
  intro st. split; [apply table_frame_refl|].
  exists [HttpGet url]. simpl. split; [reflexivity|].
  now constructor.
Qed.

Lemma respects_driver_get idxs url : respects idxs (driver_get w url).
Proof.
  intro st. split; [apply table_frame_refl|].
  exists [DriverGet url]. simpl. split; [reflexivity|].
  now constructor.
Qed.

Lemma respects_try_suffixes idxs idx base sufs :
  In idx idxs -> respects idxs (try_suffixes w idx base sufs).
Proof.
  intro Hin. induction sufs as [|suf rest IH]; cbn [try_suffixes].
  - apply respects_ret.
  - apply respects_bind; [apply respects_http_get|].
    intros [r| |]; [|exact IH | apply respects_raise].
    destruct (ok r && is_html r); [|exact IH].
    cbv zeta.
    match goal with
    | |- respects _ (if ?c then _ else _) => destruct c
    end; [|exact IH].
    apply respects_bind; [now apply respects_write_back|].
    intros _. apply respects_ret.
Qed.

Lemma respects_try_selenium idxs idx base :
  In idx idxs -> respects idxs (_try_selenium w idx base).
Proof.
  intro Hin. unfold _try_selenium.
  apply respects_bind; [apply respects_driver_get|].
  intros [html| |]; [|apply respects_ret | now apply respects_emit].
  apply respects_bind; [now apply respects_emit|].
  intros _. now apply respects_write_back.
Qed.

Lemma respects_scrape_row idxs driver e :
  In (fst e) idxs -> respects idxs (scrape_row w driver e).
Proof.
  intro Hin. unfold scrape_row, _try_plain.
  apply respects_bind; [now apply respects_try_suffixes|].
  intros [|]; [apply respects_ret|].
  apply respects_bind.
  - now apply respects_when, respects_try_selenium.
  - intros _. now apply respects_emit.
Qed.

Lemma respects_scrape_rows idxs driver subset :
  incl (map fst subset) idxs -> respects idxs (scrape_rows w driver subset).
Proof.
  induction subset as [|e rest IH]; simpl; intro Hincl.
  - apply respects_ret.
  - apply respects_bind.
    + apply respects_scrape_row. apply Hincl. now left.
    + intros _. apply IH. intros x Hx. apply Hincl. now right.
Qed.


(** The pass, spelled out: the session is opened, the selected rows are
    worked through, and the session is closed when the loop came to its
    end. *)
Lemma scrape_missing_unfold selenium (st : state) :
  let subset := filter (fun e => mask (snd e)) (frame st) in
  let driver := selenium && chrome_available w in
  let opening :=
    if selenium
    then if chrome_available w then [ChromeStarted]
         else [ChromeUnavailable]
    else [] in
  _scrape_missing w selenium st =
  match scrape_rows w driver subset
                    (mkState (frame st) (trace st ++ opening)) with
  | (Done _, st1) =>
      (Done tt, mkState (frame st1)
                        (trace st1 ++ if driver then [DriverQuit] else []))
  | (Raised, st1) => (Raised, st1)
  end.
Proof.
  destruct st as [df tr]. unfold _scrape_missing, start_driver. simpl.
  destruct selenium; simpl.
  - destruct (chrome_available w); unfold bind at 1; simpl;
      unfold bind at 1; simpl;
      match goal with
      | |- context [scrape_rows w ?d ?l ?s] =>
          destruct (scrape_rows w d l s) as [[[]|] [df1 tr1]]
      end; simpl; try reflexivity.
    now rewrite app_nil_r.
  - unfold bind at 1; simpl. unfold bind at 1; simpl.
    rewrite app_nil_r.
    match goal with
    | |- context [scrape_rows w ?d ?l ?s] =>
        destruct (scrape_rows w d l s) as [[[]|] [df1 tr1]]
    end; simpl; try reflexivity.
    now rewrite app_nil_r.
Qed.

Lemma scrape_missing_frame selenium (st : state) :
  table_frame (map fst (filter (fun e => mask (snd e)) (frame st)))
              (frame st)
              (frame (snd (_scrape_missing w selenium st))).
Proof.
  rewrite scrape_missing_unfold.
  match goal with
  | |- context [scrape_rows w ?d ?l ?s] =>
      destruct (@respects_scrape_rows (map fst l) d l (incl_refl _) s)
        as [Hf _];
      destruct (scrape_rows w d l s) as [[[]|] st1]
  end; exact Hf.
Qed.

End World.

(** In a frame with unique labels, a label of the selected subset names a
    selected row. *)
Lemma unique_label (df : table) (a b : cell * operator) :
  NoDup (map fst df) -> In a df -> In b df -> fst a = fst b -> a = b.
Proof.
  induction df as [|e df IH]; simpl; intros Hnd Ha Hb Hab; [contradiction|].
  inversion Hnd as [|? ? Hfresh Hrest]; subst.
  destruct Ha as [->|Ha], Hb as [->|Hb]; try reflexivity.
  - exfalso. apply Hfresh. rewrite Hab. now apply in_map.
  - exfalso. apply Hfresh. rewrite <- Hab. now apply in_map.
  - now apply IH.
Qed.

Lemma selected_label (df : table) (e : cell * operator) :
  NoDup (map fst df) -> In e df ->
  In (fst e) (map fst (filter (fun x => mask (snd x)) df)) ->
  mask (snd e) = true.
Proof.
  intros Hnd He Hin. apply in_map_iff in Hin.
  destruct Hin as [x [Hfst Hx]]. apply filter_In in Hx.
  destruct Hx as [Hx Hm].
  now rewrite <- (unique_label df x e Hnd Hx He Hfst).
Qed.

Lemma mask_no_contact (r : operator) :
  mask r = true -> has_contact r = false.
Proof.
  unfold mask, has_contact. intro H.
  apply andb_prop in H. destruct H as [H _].
  apply andb_prop in H. destruct H as [-> ->]. reflexivity.
Qed.

Lemma table_frame_kept idxs (df : table) : forall df',
  table_frame idxs df df' ->
  (forall e, In e df -> In (fst e) idxs -> mask (snd e) = true) ->
  map fst df' = map fst df /\ Forall2 row_kept df df'.
Proof.
  induction df as [|e df IH]; intros df' H Hsel;
    inversion H as [|? e' ? l' Hr Hrest]; subst.
  - split; [reflexivity | constructor].
  - destruct (IH l') as [Hl Hk]; [assumption | |].
    + intros x Hx. apply Hsel. now right.
    + destruct Hr as (H1 & H2 & H3 & H4 & H5).
      split; [simpl; congruence|]. constructor; [|exact Hk].
      repeat split; try assumption.
      destruct H5 as [H5|H5]; [left|now right].
      apply Hsel; [now left | exact H5].
Qed.

Lemma scrape_missing_kept (w : world) selenium (df : table) tr :
  NoDup (map fst df) ->
  let df' := frame (snd (_scrape_missing w selenium (mkState df tr))) in
  map fst df' = map fst df /\ Forall2 row_kept df df'.
Proof.
  intros Hnd df'. eapply table_frame_kept.
  - apply (scrape_missing_frame w selenium (mkState df tr)).
  - intros e He Hin. now apply selected_label with (df := df).
Qed.

End PassFacts.

(* ------------------------------------------------------------------------ *)
(** ** The browser session *)

Module SessionFacts.

Import ContactBuilder Props PassFacts.

(** With the browser enabled and available the effects of a pass are:
    the session is opened, then events that neither open nor close a
    session, then the closing, which is there exactly when the loop did
    not raise. *)
Lemma session_shape (w : world) (df : table) :
  chrome_available w = true ->
  exists evs,
    Forall quiet evs /\
    trace (snd (_scrape_missing w true (mkState df []))) =
    ChromeStarted :: evs ++
    match fst (_scrape_missing w true (mkState df [])) with
    | Done _ => [DriverQuit]
    | Raised => []
    end.
Proof.
  intro Hav. rewrite scrape_missing_unfold. simpl. rewrite Hav. simpl.
  match goal with
  | |- context [scrape_rows w ?d ?l ?s] =>
      destruct (@respects_scrape_rows w (map fst l) d l (incl_refl _) s)
        as [_ [evs [Ht Hq]]];
      destruct (scrape_rows w d l s) as [[[]|] st1]
  end; simpl in *; exists evs; (split; [exact Hq|]); rewrite Ht.
  - reflexivity.
  - now rewrite app_nil_r.
Qed.

End SessionFacts.

(* ------------------------------------------------------------------------ *)
(** ** The left join *)

Module JoinFacts.

Import ContactBuilder PlantBuilder Main Props.








End JoinFacts.


(* ------------------------------------------------------------------------ *)
(** ** The plants table *)

Module PlantFacts.

Import PlantBuilder Props.

Lemma index_of_nth_error (col : string) (cols : list string) : forall j,
  Frame.index_of col cols = Some j -> nth_error cols j = Some col.
Proof.
  induction cols as [|c cols IH]; simpl; intros j H; [discriminate|].
  destruct (String.eqb c col) eqn:E.
  - inversion H; subst. simpl. apply String.eqb_eq in E. now subst.
  - destruct (Frame.index_of col cols) as [k|]; [|discriminate].
    inversion H; subst. simpl. now apply IH.
Qed.


Lemma index_of_In (c : string) (cols : list string) (i : nat) :
  Frame.index_of c cols = Some i -> In c cols.
Proof.
  intro H. apply index_of_nth_error in H. eapply nth_error_In; eassumption.
Qed.


Lemma assign_rows (col : string) (v : cell) (df : Frame.t) :
  Frame.rows (Frame.assign col v df)
  = map (Frame.set_nth (assign_index col df) v) (Frame.rows df).
Proof.
  unfold Frame.assign, assign_index.
  now destruct (Frame.index_of col (Frame.columns df)).
Qed.

Lemma assign_has (col : string) (v : cell) (df : Frame.t) :
  In col (Frame.columns (Frame.assign col v df)).
Proof.
  unfold Frame.assign.
  destruct (Frame.index_of col (Frame.columns df)) as [i|] eqn:E; simpl.
  - eapply index_of_In; eassumption.
  - apply in_or_app. right. now left.
Qed.

Lemma mapping_fixes_constant (has_el : bool) :
  Frame.lookup (mapping has_el) (constant_column has_el) = None.
Proof. now destruct has_el. Qed.

Lemma normalised_has_constant (has_el : bool) (chunk : Frame.t) :
  Frame.has_column (constant_column has_el) (normalised has_el chunk) = true.
Proof.
  unfold Frame.has_column, normalised, Frame.rename. simpl.
  apply existsb_exists. exists (constant_column has_el).
  split; [|apply String.eqb_refl].
  apply in_map_iff. exists (constant_column has_el).
  rewrite mapping_fixes_constant. split; [reflexivity|].
  apply assign_has.
Qed.


Section Numeric.

Variable to_numeric : string -> option Q.

Lemma enrich_chunk_yields (loc_map : list string) (has_el : bool)
  (chunk : Frame.t) :
  enrich_chunk to_numeric loc_map has_el chunk
  = Some (map (to_plant to_numeric (normalised has_el chunk) loc_map has_el)
              (Frame.rows (normalised has_el chunk))).
Proof.
  pose proof (normalised_has_constant has_el chunk) as Hc.
  assert (Hin : In (constant_column has_el) required_cols).
  { destruct has_el; simpl; tauto. }
  assert (Hne : filter (fun col =>
                          Frame.has_column col (normalised has_el chunk))
                       required_cols <> []).
  { intro E.
    assert (H : In (constant_column has_el)
                   (filter (fun col =>
                              Frame.has_column col (normalised has_el chunk))
                           required_cols))
      by (apply filter_In; now split).
    rewrite E in H. contradiction. }
  unfold enrich_chunk.
  replace (if has_el
           then (biomass_mapping,
                 Frame.assign "capacity_gas_m3_per_h" (Str "0") chunk)
           else (gas_mapping, Frame.assign "capacity_el_kw" (Str "0") chunk))
    with (mapping has_el,
          Frame.assign (constant_column has_el) (Str "0") chunk)
    by (now destruct has_el).
  fold (normalised has_el chunk).
  destruct (filter (fun col => Frame.has_column col (normalised has_el chunk))
                   required_cols); [contradiction | reflexivity].
Qed.






End Numeric.

End PlantFacts.

(* ------------------------------------------------------------------------ *)
(** ** Reading errors and skipped chunks in the operator scan *)

Module ScanFacts.

Import ContactBuilder.








End ScanFacts.

(* ------------------------------------------------------------------------ *)
(** ** The sheets of the workbook *)

Module SheetFacts.

Import ContactBuilder.

Section Pieces.

Variable A : Type.
Variable m : nat.

(** Cutting a list into [c] consecutive pieces of [m] elements loses
    nothing when [c] pieces are enough. *)
Lemma pieces_concat (c : nat) : forall df : list A,
  (List.length df <= c * m)%nat ->
  List.concat (map (fun k => firstn m (skipn (k * m) df)) (seq 0 c)) = df.
Proof.
  induction c as [|c IH]; intros df Hlen.
  - simpl in *. destruct df; [reflexivity | simpl in Hlen; lia].
  - change (seq 0 (S c)) with (0%nat :: seq 1 c).
    rewrite <- seq_shift. cbn [map List.concat]. rewrite map_map.
    change (0 * m)%nat with 0%nat. cbn [skipn].
    transitivity (firstn m df ++ skipn m df); [|apply firstn_skipn].
    f_equal.
    transitivity (List.concat
                    (map (fun k => firstn m (skipn (k * m) (skipn m df)))
                         (seq 0 c))).
    + f_equal. apply map_ext. intro k.
      rewrite skipn_skipn. do 2 f_equal. lia.
    + apply IH. rewrite length_skipn. simpl in Hlen. lia.
Qed.

End Pieces.

Section Sharding.

Variable A : Type.
Variable M : Z.
Hypothesis M_positive : (0 < M)%Z.

Lemma iloc_piece (df : list A) (k : nat) :
  iloc df (Z.of_nat k * M) (Z.of_nat k * M + M)
  = firstn (Z.to_nat M) (skipn (k * Z.to_nat M) df).
Proof.
  unfold iloc. f_equal.
  - f_equal. lia.
  - f_equal. rewrite Z2Nat.inj_mul by lia. now rewrite Nat2Z.id.
Qed.

Lemma enough_pieces (n : nat) :
  (n <= Z.to_nat ((Z.of_nat n + M - 1) / M) * Z.to_nat M)%nat.
Proof.
  assert (H0 : (0 <= (Z.of_nat n + M - 1) / M)%Z)
    by (apply Z.div_pos; lia).
  rewrite <- Z2Nat.inj_mul by lia.
  apply Nat2Z.inj_le. rewrite Z2Nat.id by nia.
  pose proof (Z.mul_succ_div_gt (Z.of_nat n + M - 1) M M_positive). lia.
Qed.

Lemma shards_concat (df : list A) :
  List.concat (map (fun i => iloc df i (i + M))
                   (py_range (Z.of_nat (List.length df)) M)) = df.
Proof.
  unfold py_range. rewrite map_map.
  rewrite (map_ext _ (fun k => firstn (Z.to_nat M)
                                      (skipn (k * Z.to_nat M) df)))
    by (intro k; apply iloc_piece).
  apply pieces_concat. apply enough_pieces.
Qed.

Lemma iloc_bounded (df : list A) (i : Z) :
  (Z.of_nat (List.length (iloc df i (i + M))) <= M)%Z.
Proof.
  unfold iloc. rewrite length_firstn. lia.
Qed.

End Sharding.

Lemma save_xlsx_rows (df : table) :
  map snd (_save_xlsx df)
  = map (fun i => iloc df i (i + MAXROWS_XLSX))
        (py_range (Z.of_nat (List.length df)) MAXROWS_XLSX).
Proof. unfold _save_xlsx. rewrite map_map. reflexivity. Qed.

Lemma MAXROWS_positive : (0 < MAXROWS_XLSX)%Z.
Proof. reflexivity. Qed.

End SheetFacts.

(* ------------------------------------------------------------------------ *)
(** ** The properties of the specification *)







(** C4, on the failing input: the operator line whose e-mail, phone and
    website fields are all empty is in the deduplicated table. *)
Theorem no_contact_row_retained :
  In (Str "OP9", Extracts.op9)
     (fst (ContactBuilder._deduplicate Extracts.market_actors))
  /\ isna (ContactBuilder.email Extracts.op9) = true
  /\ isna (ContactBuilder.phone Extracts.op9) = true
  /\ isna (ContactBuilder.website Extracts.op9) = true.
Proof.
  repeat split. vm_compute. right. left. reflexivity.
Qed.




(** C6, on the failing input: an operator whose website cell is the empty
    string is selected by the mask and requested. *)
Theorem empty_website_selected :
  fst (ContactBuilder._deduplicate Extracts.market_actors_no_website)
  = [(Str "OP7", Extracts.op7)]
  /\ ContactBuilder.website Extracts.op7 = Str ""
  /\ ContactBuilder.mask Extracts.op7 = true
  /\ ContactBuilder.effects
       (ContactBuilder.build Extracts.market_actors_no_website true false
                             Extracts.silent_web)
     = [ ContactBuilder.HttpGet "https://";
         ContactBuilder.HttpGet "https:///impressum";
         ContactBuilder.HttpGet "https:///kontakt";
         ContactBuilder.Sleep 1500 ].
Proof.
  repeat split.
Qed.

(** C7, on the failing input: the plain fetch of the only selected record
    finds an address, and the pass ends without any delay. *)
Theorem no_delay_after_plain_success :
  let b := ContactBuilder.build Extracts.market_actors_website true false
                                Extracts.friendly_web in
  ContactBuilder.effects b = [ContactBuilder.HttpGet "https://example.com"]
  /\ ~ In (ContactBuilder.Sleep 1500) (ContactBuilder.effects b)
  /\ ContactBuilder.contacts b
     = ContactBuilder.Done
         [ ContactBuilder.mkContact (Str "OP3") (Str "Hof D")
                                    (Str "contact@example.com") NaN ].
Proof.
  repeat split. vm_compute. intros [H|[]]. discriminate H.
Qed.

(** C8, as stated, fails: the browser session is started, an exception
    that is not a request exception escapes while the only record is
    processed, and the pass ends without quitting the session. *)
Lemma session_left_open_on_exception :
  let b := ContactBuilder.build Extracts.market_actors_website true true
                                Extracts.hostile_web in
  ContactBuilder.contacts b = ContactBuilder.Raised
  /\ In ContactBuilder.ChromeStarted (ContactBuilder.effects b)
  /\ ~ In ContactBuilder.DriverQuit (ContactBuilder.effects b).
Proof.
  repeat split.
  - vm_compute. now left.
  - vm_compute. intros [H|[H|[]]]; discriminate H.
Qed.

(** C8, amended: when the browser fallback is enabled and available, one
    session is created, before any record is processed; no other session
    is created; the session is quit after the last record when the loop
    over the records comes to its end, and it is not quit when an
    exception escapes while a record is processed. *)
Theorem browser_session_lifecycle
  (requests_get : list ContactBuilder.event -> string -> ContactBuilder.fetch)
  (driver_page : list ContactBuilder.event -> string -> ContactBuilder.browse)
  (df : ContactBuilder.table) :
  let w := ContactBuilder.mkWorld requests_get driver_page true in
  let run := ContactBuilder._scrape_missing w true
               (ContactBuilder.mkState df []) in
  exists evs,
    Forall Props.quiet evs
    /\ ContactBuilder.trace (snd run)
       = ContactBuilder.ChromeStarted :: evs
         ++ match fst run with
            | ContactBuilder.Done _ => [ContactBuilder.DriverQuit]
            | ContactBuilder.Raised => []
            end.
Proof.
  intros w run.
  apply (SessionFacts.session_shape w df). reflexivity.
Qed.

(** C9: the sheets of the workbook, read one after the other, are the rows
    of the table in order; no sheet has more than 1,000,000 rows; and a
    table of exactly 1,000,001 rows gives two sheets, contacts_1 with
    1,000,000 rows and contacts_2 with the last row. *)
Theorem sheet_sharding (df : ContactBuilder.table) :
  List.concat (map snd (ContactBuilder._save_xlsx df)) = df
  /\ Forall (fun sheet =>
               (Z.of_nat (List.length (snd sheet))
                <= ContactBuilder.MAXROWS_XLSX)%Z)
            (ContactBuilder._save_xlsx df)
  /\ (Z.of_nat (List.length df) = 1000001%Z ->
      exists first last,
        ContactBuilder._save_xlsx df
        = [("contacts_1", first); ("contacts_2", last)]
        /\ Z.of_nat (List.length first) = 1000000%Z
        /\ Z.of_nat (List.length last) = 1%Z).
Proof.
  split; [|split].
  - rewrite SheetFacts.save_xlsx_rows.
    apply SheetFacts.shards_concat. apply SheetFacts.MAXROWS_positive.
  - unfold ContactBuilder._save_xlsx. apply Forall_map.
    apply Forall_forall. intros i _. cbn [snd].
    apply SheetFacts.iloc_bounded. apply SheetFacts.MAXROWS_positive.
  - intro Hlen. unfold ContactBuilder._save_xlsx, ContactBuilder.py_range.
    rewrite Hlen.
    change (Z.to_nat ((1000001 + ContactBuilder.MAXROWS_XLSX - 1)
                      / ContactBuilder.MAXROWS_XLSX)) with 2%nat.
    cbn [seq map].
    change (ContactBuilder.sheet_name
              (Z.of_nat 0 * ContactBuilder.MAXROWS_XLSX))
      with "contacts_1".
    change (ContactBuilder.sheet_name
              (Z.of_nat 1 * ContactBuilder.MAXROWS_XLSX))
      with "contacts_2".
    do 2 eexists. split; [reflexivity|].
    unfold ContactBuilder.iloc.
    rewrite !length_firstn, !length_skipn.
    unfold ContactBuilder.MAXROWS_XLSX. lia.
Qed.

(** C9 on a table of 1,000,001 rows. *)
Lemma sheet_sharding_witness :
  Z.of_nat (List.length Extracts.million_and_one) = 1000001%Z
  /\ exists first last,
       ContactBuilder._save_xlsx Extracts.million_and_one
       = [("contacts_1", first); ("contacts_2", last)]
       /\ Z.of_nat (List.length first) = 1000000%Z
       /\ Z.of_nat (List.length last) = 1%Z.
Proof.
  assert (H : Z.of_nat (List.length Extracts.million_and_one) = 1000001%Z).
  { unfold Extracts.million_and_one. rewrite repeat_length.
    apply Z2Nat.id. discriminate. }
  split; [exact H|].
  exact (proj2 (proj2 (sheet_sharding Extracts.million_and_one)) H).
Defined.

(** C10: the resolution pass run on a deduplicated operator table keeps
    the labels of the rows and their order; in every row it keeps the
    identifier, the name and the website; and a row that the mask did not
    select, in particular a row that holds an e-mail address or a phone
    number, is the same after the pass. *)
Theorem scrape_frame_effect (market_csv : feed) (w : ContactBuilder.world)
  (selenium : bool) :
  let df := fst (ContactBuilder._deduplicate market_csv) in
  let df' :=
    ContactBuilder.frame
      (snd (ContactBuilder._scrape_missing w selenium
              (ContactBuilder.mkState df []))) in
  map fst df' = map fst df
  /\ Forall2 Props.row_kept df df'
  /\ Forall2 (fun e e' =>
                Props.has_contact (snd e) = true -> e' = e) df df'.
Proof.
  intros df df'.
  destruct (DedupFacts.deduplicate_first_wins market_csv) as [Hnd _ _].
  destruct (PassFacts.scrape_missing_kept w selenium df [] Hnd) as [Hl Hk].
  fold df' in Hl, Hk. repeat split; try assumption.
  clear - Hk. induction Hk as [|e e' l l' Hr _ IH]; constructor; [|exact IH].
  intro Hc. destruct Hr as (_ & _ & _ & [Hm|He]); [|exact He].
  apply PassFacts.mask_no_contact in Hm. congruence.
Qed.

(** C10 on a table with one row that holds an address and one that has a
    website only: the pass fills in the second row and leaves the first
    one as it was. *)
Lemma scrape_frame_effect_witness :
  let df := fst (ContactBuilder._deduplicate Extracts.market_actors_mixed) in
  let df' :=
    ContactBuilder.frame
      (snd (ContactBuilder._scrape_missing Extracts.friendly_web false
              (ContactBuilder.mkState df []))) in
  df' <> df
  /\ map fst df' = map fst df
  /\ Forall2 Props.row_kept df df'
  /\ Forall2 (fun e e' => Props.has_contact (snd e) = true -> e' = e) df df'.
Proof.
  split.
  - vm_compute. intro H. discriminate H.
  - exact (scrape_frame_effect Extracts.market_actors_mixed
                               Extracts.friendly_web false).
Defined.

(* ------------------------------------------------------------------------ *)
(** ** Further properties: extraction *)

Module StringFacts.

Lemma append_assoc (a b c : string) :
  ((a ++ b) ++ c)%string = (a ++ (b ++ c))%string.
Proof. induction a as [|x a IH]; simpl; [reflexivity | now rewrite IH]. Qed.

Lemma append_nil_r (a : string) : (a ++ "")%string = a.
Proof. induction a as [|x a IH]; simpl; [reflexivity | now rewrite IH]. Qed.


Lemma chars_append (a b : string) :
  list_ascii_of_string (a ++ b)%string
  = list_ascii_of_string a ++ list_ascii_of_string b.
Proof. induction a as [|x a IH]; simpl; [reflexivity | now rewrite IH]. Qed.

End StringFacts.

Module ExtractFacts.

Import ContactBuilder MoreProps StringFacts.

Lemma all_chars_prefix (p : ascii -> bool) (a b : string) :
  all_chars p (a ++ b)%string -> all_chars p a.
Proof.
  unfold all_chars. rewrite chars_append, Forall_app. tauto.
Qed.

Lemma all_chars_cons (p : ascii -> bool) (c : ascii) (a : string) :
  p c = true -> all_chars p a -> all_chars p (String c a).
Proof. intros Hc Ha. now constructor. Qed.

Lemma span_spec (p : ascii -> bool) (s : string) :
  s = (fst (span p s) ++ snd (span p s))%string
  /\ all_chars p (fst (span p s)).
Proof.
  induction s as [|c s [IH1 IH2]]; simpl.
  - split; [reflexivity | constructor].
  - destruct (p c) eqn:Hc.
    + destruct (span p s) as [a b]. simpl in *. split.
      * now rewrite <- IH1.
      * now apply all_chars_cons.
    + split; [reflexivity | constructor].
Qed.

Lemma domain_match_spec (run : string) : forall first m,
  domain_match first run = Some m ->
  exists dom tld rest,
    run = (dom ++ "." ++ tld ++ rest)%string
    /\ m = (dom ++ "." ++ tld)%string
    /\ (first = true -> dom <> "")
    /\ (2 <= String.length tld)%nat
    /\ all_chars isalpha tld.
Proof.
  induction run as [|c r IH]; intros first m H; cbn [domain_match] in H;
    [discriminate|].
  destruct (domain_match false r) as [m'|] eqn:Hr.
  - inversion H; subst. destruct (IH false m' Hr)
      as (dom & tld & rest & Hrun & Hm & _ & Hlen & Halpha).
    exists (String c dom), tld, rest. subst. simpl.
    repeat split; try assumption. discriminate.
  - destruct (Ascii.eqb c "."%char) eqn:Hc; cbn [andb negb] in H;
      [|discriminate].
    destruct first; cbn [andb negb] in H; [discriminate|].
    destruct (2 <=? String.length (fst (span isalpha r)))%nat eqn:Hlen;
      [|discriminate].
    inversion H; subst. apply Ascii.eqb_eq in Hc. subst.
    destruct (span_spec isalpha r) as [Hsplit Halpha].
    exists "", (fst (span isalpha r)), (snd (span isalpha r)). simpl.
    repeat split; try assumption.
    + now rewrite <- Hsplit.
    + discriminate.
    + now apply Nat.leb_le.
Qed.

Lemma email_at_spec (s m : string) :
  email_at s = Some m ->
  (exists post, s = (m ++ post)%string) /\ email_shape m.
Proof.
  unfold email_at. intro H.
  destruct (span_spec local_char s) as [Hs Hloc].
  destruct (span local_char s) as [loc rest]. simpl in *.
  destruct loc as [|l0 loc]; [discriminate|].
  destruct rest as [|a rest']; [discriminate|].
  destruct (Ascii.eqb a "@"%char) eqn:Ha.
  - apply Ascii.eqb_eq in Ha. subst a.
    destruct (span_spec domain_char rest') as [Hr Hdom].
    destruct (domain_match true (fst (span domain_char rest'))) as [m'|] eqn:Hm;
      [|discriminate].
    inversion H; subst m. clear H.
    destruct (domain_match_spec _ _ _ Hm)
      as (dom & tld & rest & Hrun & -> & Hne & Hlen & Halpha).
    split.
    + exists (rest ++ snd (span domain_char rest'))%string.
      rewrite Hs, Hr, Hrun at 1. simpl.
      rewrite !append_assoc. simpl. rewrite !append_assoc. reflexivity.
    + exists (String l0 loc), dom, tld. simpl.
      repeat split; try assumption; try discriminate.
      * now apply Hne.
      * rewrite Hrun in Hdom. now apply all_chars_prefix in Hdom.
  - exfalso. revert H Ha. clear.
    destruct a as [[] [] [] [] [] [] [] []]; intros H Ha;
      try discriminate H.
    discriminate Ha.
Qed.


Lemma first_match_spec (at_pos : string -> option string) (s : string) :
  forall m, first_match at_pos s = Some m ->
  exists pre suf, s = (pre ++ suf)%string /\ at_pos suf = Some m.
Proof.
  induction s as [|c s IH]; intros m H; simpl in H.
  - destruct (at_pos "") eqn:E; [|discriminate].
    inversion H; subst. now exists "", "".
  - destruct (at_pos (String c s)) eqn:E.
    + inversion H; subst. now exists "", (String c s).
    + destruct (IH m H) as (pre & suf & -> & Hm).
      now exists (String c pre), suf.
Qed.

Lemma found_occurs (at_pos : string -> option string)
  (shape : string -> Prop) (html m : string) :
  (forall s x, at_pos s = Some x ->
               (exists post, s = (x ++ post)%string) /\ shape x) ->
  first_match at_pos html = Some m ->
  occurs_in m html /\ shape m.
Proof.
  intros Hat H. apply first_match_spec in H.
  destruct H as (pre & suf & -> & Hm).
  destruct (Hat suf m Hm) as [[post ->] Hs].
  split; [now exists pre, post | exact Hs].
Qed.

End ExtractFacts.

(* ------------------------------------------------------------------------ *)
(** ** Further properties: the resolution pass *)

Module EventFacts.

Import ContactBuilder Props MoreProps.
Local Open Scope scrape_scope.

Lemma emits_weaken (P Q : event -> Prop) A (m : M A) :
  (forall ev, P ev -> Q ev) -> emits P m -> emits Q m.
Proof.
  intros HPQ Hm st. destruct (Hm st) as [evs [Ht Hf]].
  exists evs. split; [exact Ht|]. eapply Forall_impl; eassumption.
Qed.

Lemma emits_ret P A (a : A) : emits P (ret a).
Proof. intro st. exists []. simpl. now rewrite app_nil_r. Qed.

Lemma emits_raise P A : emits P (@raise A).
Proof. intro st. exists []. simpl. now rewrite app_nil_r. Qed.

Lemma emits_bind P A B (m : M A) (k : A -> M B) :
  emits P m -> (forall a, emits P (k a)) -> emits P (bind m k).
Proof.
  intros Hm Hk st. unfold bind.
  destruct (Hm st) as [evs [Ht Hq]].
  destruct (m st) as [[a|] st1]; simpl in *.
  - destruct (Hk a st1) as [evs' [Ht' Hq']].
    exists (evs ++ evs'). rewrite Ht', Ht, app_assoc. split; [reflexivity|].
    apply Forall_app. now split.
  - now exists evs.
Qed.

Lemma emits_emit (P : event -> Prop) e : P e -> emits P (emit e).
Proof.
  intros He st. exists [e]. simpl. split; [reflexivity|]. now constructor.
Qed.

Lemma emits_modify P f : emits P (modify f).
Proof. intro st. exists []. simpl. now rewrite app_nil_r. Qed.

Lemma emits_when P b (m : M unit) : emits P m -> emits P (when b m).
Proof. destruct b; simpl; [trivial | intros _; apply emits_ret]. Qed.

Lemma emits_write_back P idx found : emits P (write_back idx found).
Proof.
  unfold write_back. apply emits_bind.
  - apply emits_when, emits_modify.
  - intros _. apply emits_when, emits_modify.
Qed.

Section World.

Variable w : world.

Lemma emits_http_get (P : event -> Prop) url :
  P (HttpGet url) -> emits P (http_get w url).
Proof.
  intros H st. exists [HttpGet url]. simpl. split; [reflexivity|].
  now constructor.
Qed.

Lemma emits_driver_get (P : event -> Prop) url :
  P (DriverGet url) -> emits P (driver_get w url).
Proof.
  intros H st. exists [DriverGet url]. simpl. split; [reflexivity|].
  now constructor.
Qed.

Lemma emits_try_suffixes (P : event -> Prop) idx base sufs :
  (forall suf, In suf sufs -> P (HttpGet (base ++ suf)%string)) ->
  emits P (try_suffixes w idx base sufs).
Proof.
  induction sufs as [|suf rest IH]; intro HP; cbn [try_suffixes].
  - apply emits_ret.
  - assert (IH' : emits P (try_suffixes w idx base rest))
      by (apply IH; intros x Hx; apply HP; now right).
    apply emits_bind; [apply emits_http_get, HP; now left|].
    intros [r| |]; [|exact IH' | apply emits_raise].
    destruct (ok r && is_html r); [|exact IH'].
    cbv zeta.
    match goal with
    | |- emits _ (if ?c then _ else _) => destruct c
    end; [|exact IH'].
    apply emits_bind; [apply emits_write_back|].
    intros _. apply emits_ret.
Qed.

Lemma emits_try_selenium (P : event -> Prop) idx base :
  P (DriverGet base) -> P (Sleep 2000) -> emits P (_try_selenium w idx base).
Proof.
  intros Hg Hs. unfold _try_selenium.
  apply emits_bind; [now apply emits_driver_get|].
  intros [html| |]; [|apply emits_ret | now apply emits_emit].
  apply emits_bind; [now apply emits_emit|].
  intros _. apply emits_write_back.
Qed.

Lemma emits_scrape_row driver e :
  emits (fun ev => In ev (row_events driver (snd e))) (scrape_row w driver e).
Proof.
  unfold scrape_row, _try_plain, row_events.
  apply emits_bind.
  - apply emits_try_suffixes. intros suf Hsuf.
    apply in_or_app. left. apply in_map_iff. now exists suf.
  - intros [|]; [apply emits_ret|].
    apply emits_bind.
    + destruct driver; simpl; [|apply emits_ret].
      apply emits_try_selenium; simpl; tauto.
    + intros _. apply emits_emit.
      apply in_or_app. right. apply in_or_app. right. now left.
Qed.

Lemma emits_scrape_rows driver subset :
  emits (fun ev => exists e, In e subset
                             /\ In ev (row_events driver (snd e)))
        (scrape_rows w driver subset).
Proof.
  induction subset as [|e rest IH]; simpl.
  - apply emits_ret.
  - apply emits_bind.
    + eapply emits_weaken; [|apply emits_scrape_row].
      intros ev Hev. exists e. split; [now left | exact Hev].
    + intros _. eapply emits_weaken; [|exact IH].
      intros ev [x [Hx Hev]]. exists x. split; [now right | exact Hev].
Qed.

(** The effects of a pass: the opening of the session, then events that
    belong to the work on selected rows, then the closing of the session
    when there is a driver and the loop came to its end. *)
Lemma pass_trace selenium (df : table) :
  let driver := selenium && chrome_available w in
  let run := _scrape_missing w selenium (mkState df []) in
  exists evs,
    Forall (from_selected_row driver df) evs
    /\ trace (snd run)
       = (if selenium
          then if chrome_available w then [ChromeStarted]
               else [ChromeUnavailable]
          else [])
         ++ evs
         ++ match fst run with
            | Done _ => if driver then [DriverQuit] else []
            | Raised => []
            end.
Proof.
  intros driver run. unfold run.
  rewrite PassFacts.scrape_missing_unfold. cbn [frame trace app].
  fold driver.
  set (subset := filter (fun e => mask (snd e)) df).
  set (opening := if selenium
                  then if chrome_available w then [ChromeStarted]
                       else [ChromeUnavailable]
                  else []).
  destruct (emits_scrape_rows driver subset (mkState df opening))
    as [evs [Ht Hq]].
  exists evs. split.
  - eapply Forall_impl; [|exact Hq].
    intros ev [e [He Hev]]. apply filter_In in He. destruct He as [He Hm].
    exists e. now repeat split.
  - destruct (scrape_rows w driver subset (mkState df opening))
      as [[[]|] st1]; cbn [fst snd trace] in *; rewrite Ht; cbn [trace].
    + now rewrite <- app_assoc.
    + now rewrite app_nil_r.
Qed.






















End World.

End EventFacts.

(* ------------------------------------------------------------------------ *)
(** ** Further properties: the operator scan and the workbook *)

Module ChunkFacts.

Import ContactBuilder Props.

(** The rows that one chunk hands to the row loop, as a function of its
    header and its lines. *)
Lemma chunk_rows (cols : list string) (rows : list (list cell)) :
  fed_rows [Chunk (Frame.mk cols rows)]
  = match cols, rows with
    | [], _ => []
    | _, [] => []
    | _, _ =>
        match prepare (Frame.mk cols []) with
        | None => []
        | Some _ => map (to_operator
                           (Frame.rename column_mapping (Frame.mk cols [])))
                        rows
        end
    end.
Proof.
  unfold fed_rows, Frame.empty, prepare. cbn [Frame.columns Frame.rows].
  rewrite app_nil_r.
  destruct cols as [|c cols]; [reflexivity|].
  destruct rows as [|x rows]; [reflexivity|].
  change (filter (fun col => Frame.has_column col
                    (Frame.rename column_mapping
                       (Frame.mk (c :: cols) (x :: rows)))) keep)
    with (filter (fun col => Frame.has_column col
                    (Frame.rename column_mapping
                       (Frame.mk (c :: cols) []))) keep).
  destruct (filter (fun col => Frame.has_column col
                      (Frame.rename column_mapping
                         (Frame.mk (c :: cols) []))) keep);
    reflexivity.
Qed.

Lemma chunk_rows_split (cols : list string) (r1 r2 : list (list cell)) :
  fed_rows [Chunk (Frame.mk cols (r1 ++ r2))]
  = fed_rows [Chunk (Frame.mk cols r1)]
    ++ fed_rows [Chunk (Frame.mk cols r2)].
Proof.
  rewrite !chunk_rows.
  destruct cols as [|c cols]; [reflexivity|].
  destruct r1 as [|x r1]; [reflexivity|].
  destruct r2 as [|y r2]; [now rewrite !app_nil_r|].
  cbn [app]. destruct (prepare (Frame.mk (c :: cols) [])); [|reflexivity].
  rewrite <- map_app. reflexivity.
Qed.

Lemma fed_rows_cons (r : read) (f g : feed) :
  fed_rows f = fed_rows g -> fed_rows (r :: f) = fed_rows (r :: g).
Proof. intro H. destruct r; simpl; [now rewrite H | reflexivity..]. Qed.

Lemma fed_rows_chunk (c : Frame.t) (f : feed) :
  fed_rows (Chunk c :: f) = fed_rows [Chunk c] ++ fed_rows f.
Proof. simpl. now rewrite app_nil_r. Qed.

Lemma fed_rows_rechunk (pre : feed) (cols : list string)
  (r1 r2 : list (list cell)) (post : feed) :
  fed_rows (pre ++ Chunk (Frame.mk cols (r1 ++ r2)) :: post)
  = fed_rows (pre ++ Chunk (Frame.mk cols r1)
                  :: Chunk (Frame.mk cols r2) :: post).
Proof.
  induction pre as [|r pre IH]; [|now apply fed_rows_cons].
  cbn [app].
  rewrite (fed_rows_chunk (Frame.mk cols (r1 ++ r2))).
  rewrite (fed_rows_chunk (Frame.mk cols r1)).
  rewrite (fed_rows_chunk (Frame.mk cols r2)).
  rewrite chunk_rows_split. now rewrite <- app_assoc.
Qed.

Lemma scan_log_clean (f : feed) : forall store log,
  ~ In NoMarketActorData log ->
  ~ In NoMarketActorData (snd (scan f store log)).
Proof.
  assert (Hsnoc : forall log d, d <> NoMarketActorData ->
                    ~ In NoMarketActorData log ->
                    ~ In NoMarketActorData (log ++ [d])).
  { intros log d Hd Hlog Hin. apply in_app_or in Hin.
    destruct Hin as [Hin|[Hin|[]]]; [now apply Hlog | now apply Hd]. }
  induction f as [|r f IH]; intros store log Hlog; simpl; [exact Hlog|].
  destruct r as [c| |]; simpl.
  - destruct (Frame.empty c); [now apply IH|].
    destruct (prepare c); apply IH; [exact Hlog|].
    apply Hsnoc; [discriminate | exact Hlog].
  - apply Hsnoc; [discriminate | exact Hlog].
  - apply Hsnoc; [discriminate | exact Hlog].
Qed.

Lemma empty_table_iff (f : feed) :
  fst (_deduplicate f) = []
  <-> Forall (fun r => retained r = false) (fed_rows f).
Proof.
  destruct (DedupFacts.deduplicate_first_wins f) as [_ Hfirst Hall].
  split.
  - intro He. apply Forall_forall. intros r Hr.
    destruct (retained r) eqn:Hret; [|reflexivity].
    specialize (Hall r Hr Hret). rewrite He in Hall. contradiction.
  - intro Hnone. destruct (fst (_deduplicate f)) as [|[k r] t] eqn:E;
      [reflexivity|].
    destruct (Hfirst k r (or_introl eq_refl)) as [_ Hfind].
    apply find_some in Hfind. destruct Hfind as [Hin Hs].
    rewrite Forall_forall in Hnone. specialize (Hnone r Hin).
    unfold sighting in Hs. rewrite Hnone in Hs. discriminate.
Qed.

Lemma no_data_logged_iff (f : feed) :
  In NoMarketActorData (snd (_deduplicate f)) <-> fst (_deduplicate f) = [].
Proof.
  unfold _deduplicate.
  pose proof (scan_log_clean f [] [] (fun H => H)) as Hclean.
  destruct (scan f [] []) as [store log]. simpl in *.
  destruct store as [|e store]; simpl.
  - split; [reflexivity|]. intros _. apply in_or_app. right. now left.
  - split; [contradiction | discriminate].
Qed.

End ChunkFacts.

Module WorkbookFacts.

Import ContactBuilder.

Lemma sheet_count (df : table) :
  List.length (_save_xlsx df)
  = Z.to_nat ((Z.of_nat (List.length df) + MAXROWS_XLSX - 1) / MAXROWS_XLSX).
Proof.
  unfold _save_xlsx, py_range. now rewrite !length_map, length_seq.
Qed.



End WorkbookFacts.

(* ------------------------------------------------------------------------ *)
(** ** Further properties: the plants table *)

Module PlantRowFacts.

Import PlantBuilder Props MoreProps PlantFacts.



Lemma lookup_target (m : list (string * string)) (x y : string) :
  Frame.lookup m x = Some y -> In y (map snd m).
Proof.
  induction m as [|[a b] m IH]; simpl; intro H; [discriminate|].
  destruct (String.eqb a x); [inversion H; now left | right; now apply IH].
Qed.





Section Numeric.

Variable to_numeric : string -> option Q.


Lemma enrich_cons (loc_map : list string) (has_el : bool) (chunk : Frame.t)
  (src : feed) :
  List.concat (fst (_enrich to_numeric (Chunk chunk :: src) loc_map has_el))
  = yielded to_numeric loc_map has_el chunk
    ++ List.concat (fst (_enrich to_numeric src loc_map has_el)).
Proof.
  unfold yielded. simpl.
  destruct (Frame.empty chunk); [reflexivity|].
  destruct (_enrich to_numeric src loc_map has_el) as [dfs log].
  rewrite enrich_chunk_yields. simpl.
  now rewrite assign_rows, map_map.
Qed.

Lemma enrich_forall (P : plant -> Prop) (loc_map : list string)
  (has_el : bool) (src : feed) :
  (forall chunk row,
      P (to_plant to_numeric (normalised has_el chunk) loc_map has_el
           (Frame.set_nth (assign_index (constant_column has_el) chunk)
                          (Str "0") row))) ->
  Forall P (List.concat (fst (_enrich to_numeric src loc_map has_el))).
Proof.
  intro HP. induction src as [|r src IH]; [constructor|].
  destruct r as [chunk| |]; [|constructor..].
  rewrite enrich_cons. apply Forall_app. split; [|exact IH].
  unfold yielded. destruct (Frame.empty chunk); [constructor|].
  apply Forall_map. apply Forall_forall. intros row _. apply HP.
Qed.

Lemma build_split (biomass gas loc : feed) :
  exists loc_map,
    fst (build to_numeric biomass gas loc)
    = List.concat (fst (_enrich to_numeric biomass loc_map true))
      ++ List.concat (fst (_enrich to_numeric gas loc_map false)).
Proof.
  unfold build.
  destruct (match location_ids loc with
            | Some ids => (ids, [])
            | None => ([], [ErrorReadingLocations])
            end) as [loc_map loc_log].
  exists loc_map.
  destruct (_enrich to_numeric biomass loc_map true) as [bdfs blog].
  destruct (_enrich to_numeric gas loc_map false) as [gdfs glog].
  simpl. apply concat_app.
Qed.

Lemma build_forall (P : plant -> Prop) (biomass gas loc : feed) :
  (forall chunk loc_map has_el row,
      P (to_plant to_numeric chunk loc_map has_el row)) ->
  Forall P (fst (build to_numeric biomass gas loc)).
Proof.
  intro HP. destruct (build_split biomass gas loc) as [loc_map ->].
  apply Forall_app. split; apply enrich_forall; intros; apply HP.
Qed.



Lemma to_plant_coordinates (chunk : Frame.t) (loc_map : list string)
  (has_el : bool) (row : list cell) :
  blank_coordinates (to_plant to_numeric chunk loc_map has_el row).
Proof.
  unfold blank_coordinates, to_plant, locate.
  change (Frame.has_column "latitude_raw" (Frame.mk required_cols [])
          && Frame.has_column "longitude_raw" (Frame.mk required_cols []))
    with false. cbv iota.
  destruct (existsb (String.eqb (Py.str (field chunk "unit_id" row)))
                    loc_map); simpl; tauto.
Qed.


End Numeric.

(** Cleaning of identifiers. *)
Lemma all_chars_smap (P : ascii -> bool) (f : ascii -> ascii) (s : string) :
  (forall c, P (f c) = true) -> all_chars P (smap f s).
Proof.
  intro H. induction s as [|c s IH]; simpl; constructor;
    [apply H | exact IH].
Qed.

Lemma lower_char_clean (c : ascii) :
  negb (isupper (lower_char
                   (if Ascii.eqb c " "%char then "_"%char else c)))
  && negb (Ascii.eqb (lower_char
                        (if Ascii.eqb c " "%char then "_"%char else c))
                     " "%char) = true.
Proof. destruct c as [[] [] [] [] [] [] [] []]; reflexivity. Qed.

Lemma to_plant_id_clean (u : cell) : lowercase_no_blank (to_plant_id u).
Proof.
  unfold lowercase_no_blank, to_plant_id, lower, replace_char.
  induction (Py.str u) as [|c s IH]; simpl; constructor; [|exact IH].
  apply lower_char_clean.
Qed.

Lemma remove_spaces_clean (s : string) : no_space (remove_spaces s).
Proof.
  unfold no_space. induction s as [|c s IH]; simpl; [constructor|].
  destruct (isspace c) eqn:E; [exact IH|].
  constructor; [now rewrite E | exact IH].
Qed.

End PlantRowFacts.

Module FetchFacts.

Import Fetcher MoreProps.

(** A computation on the fetcher's state that only adds events
    satisfying [P]. *)
Lemma log_grows (P : event -> Prop) (e : event) (st : state) :
  P e -> exists more, snd (log e st) = snd st ++ more /\ Forall P more.
Proof. intro H. exists [e]. split; [reflexivity | now constructor]. Qed.

Section World.

Variable w : world.

(** The inner loop over one priority list. *)
Lemma export_first_spec (available : list string) (entry : string * list string)
  (tables : list string) : forall st,
  In entry dataset_priorities ->
  incl tables (snd entry) ->
  fst (snd (export_first w available (fst entry) tables st))
  = (if fst (export_first w available (fst entry) tables st)
     then dict_set (fst entry) (csv_name (fst entry)) (fst st)
     else fst st)
  /\ exists more,
       snd (snd (export_first w available (fst entry) tables st))
       = snd st ++ more
       /\ Forall manual_event more.
Proof.
  intros st Hentry. revert st.
  induction tables as [|t rest IH]; intros st Hincl.
  - simpl. split; [reflexivity|]. exists []. now rewrite app_nil_r.
  - assert (Hrest : incl rest (snd entry))
      by (intros x Hx; apply Hincl; now right).
    cbn [export_first].
    destruct (existsb (String.eqb t) available); [|now apply IH].
    unfold export_table.
    destruct (export_ok w (snd st) t).
    + cbn. split; [reflexivity|].
      exists [ExportTable t (csv_name (fst entry))]. split; [reflexivity|].
      constructor; [|constructor].
      exists entry. repeat split; [exact Hentry|]. apply Hincl. now left.
    + destruct (IH (log (ExportFailed t) st) Hrest)
        as [Hp [more [Hm Hf]]].
      split; [exact Hp|].
      exists (ExportFailed t :: more). split.
      * rewrite Hm. cbn. now rewrite <- app_assoc.
      * constructor; [exact I | exact Hf].
Qed.

Lemma export_dataset_spec (available : list string)
  (entry : string * list string) (st : state) :
  In entry dataset_priorities ->
  fst (export_dataset w available entry st)
  = dict_set (fst entry) (csv_name (fst entry)) (fst st)
  /\ exists more,
       snd (export_dataset w available entry st) = snd st ++ more
       /\ Forall manual_event more.
Proof.
  intro Hentry.
  destruct (export_first_spec available entry (snd entry) st Hentry
              (incl_refl _)) as [Hp [more [Hm Hf]]].
  unfold export_dataset. destruct entry as [key tables]. cbn [fst snd] in *.
  destruct (export_first w available key tables st) as [[|] st'];
    cbn [fst snd] in *.
  - split; [exact Hp|]. now exists more.
  - split; [cbn; now rewrite Hp|].
    exists (more ++ [Touch (csv_name key)]). split.
    + cbn. rewrite Hm. now rewrite <- app_assoc.
    + apply Forall_app. split; [exact Hf|].
      constructor; [|constructor].
      exists (key, tables). now split.
Qed.

(** After the priority loop every dataset has its file. *)
Lemma priority_phase (available : list string) (evs : list event) :
  exists more,
    fold_left (fun st entry => export_dataset w available entry st)
              dataset_priorities ([], evs)
    = (dataset_paths, evs ++ more)
    /\ Forall manual_event more.
Proof.
  unfold dataset_priorities. cbn [fold_left].
  repeat match goal with
  | |- context [export_dataset w available ?entry ?st] =>
      let Hp := fresh "Hp" in
      let more := fresh "more" in
      let Hm := fresh "Hm" in
      let Hf := fresh "Hf" in
      destruct (export_dataset_spec available entry st)
        as [Hp [more [Hm Hf]]];
      [unfold dataset_priorities; simpl; tauto|];
      destruct (export_dataset w available entry st) as [p l];
      cbn [fst snd] in Hp, Hm; subst p l
  end.
  eexists. split.
  - cbn. rewrite <- !app_assoc. reflexivity.
  - repeat (apply Forall_app; split); assumption.
Qed.

Lemma dataset_known (filename dataset_key : string) :
  Frame.lookup file_to_dataset filename = Some dataset_key ->
  dict_has dataset_key dataset_paths = true.
Proof.
  intro H. apply PlantRowFacts.lookup_target in H. simpl in H.
  repeat (destruct H as [<-|H]; [reflexivity|]). contradiction.
Qed.

(** With every dataset in the result, the loop kept for backwards
    compatibility and the final loop do nothing. *)
Lemma legacy_idle (table_name : string) (evs : list event) :
  legacy_export w table_name (dataset_paths, evs) = (dataset_paths, evs).
Proof.
  unfold legacy_export.
  destruct (Frame.lookup table_mapping table_name) as [filename|];
    [|reflexivity].
  destruct (Frame.lookup file_to_dataset filename) as [dataset_key|] eqn:E;
    [|reflexivity].
  cbn [fst]. rewrite (dataset_known _ _ E).
  now rewrite andb_false_r.
Qed.

Lemma legacy_phase (available : list string) (evs : list event) :
  fold_left (fun st table_name => legacy_export w table_name st)
            available (dataset_paths, evs)
  = (dataset_paths, evs).
Proof.
  induction available as [|t rest IH]; [reflexivity|].
  cbn [fold_left]. now rewrite legacy_idle.
Qed.

Lemma manual_export_result (available : list string) (evs : list event) :
  available_tables w = Some available ->
  exists more,
    _manual_export w ([], evs) = Some (dataset_paths, evs ++ more)
    /\ Forall manual_event more.
Proof.
  intro Hav. unfold _manual_export. rewrite Hav.
  destruct (priority_phase available evs) as [more [-> Hf]].
  exists more. split; [|exact Hf].
  now rewrite legacy_phase.
Qed.

Lemma create_empty_files_paths (evs : list event) :
  fst (_create_empty_files ([], evs)) = dataset_paths.
Proof. reflexivity. Qed.

Lemma copy_exported_files_paths (evs : list event) :
  forall key, In key (map fst dataset_paths) ->
  dict_get key (fst (_copy_exported_files w ([], evs)))
  = Some (csv_name key).
Proof.
  intros key Hkey. unfold _copy_exported_files.
  destruct (dataversion_dirs w) as [|d rest].
  - rewrite create_empty_files_paths. simpl in Hkey.
    repeat (destruct Hkey as [<-|Hkey]; [reflexivity|]). contradiction.
  - unfold file_mapping. cbn [fold_left]. unfold copy_file.
    repeat match goal with
    | |- context [source_exists w ?dir ?f] =>
        destruct (source_exists w dir f)
    end; simpl in Hkey;
    repeat (destruct Hkey as [<-|Hkey]; [reflexivity|]); contradiction.
Qed.

End World.

End FetchFacts.

(* ------------------------------------------------------------------------ *)
(** ** Further properties of the code *)

(** X1: an e-mail address returned by [_extract] is a piece of the page it
    was given, and it is a word of the e-mail pattern: a non-empty local
    part, the at sign, a non-empty domain, a dot and two letters or more. *)
Theorem extract_email_sound (html m : string) :
  fst (ContactBuilder._extract html) = Some m ->
  MoreProps.occurs_in m html /\ MoreProps.email_shape m.
Proof.
  apply ExtractFacts.found_occurs. apply ExtractFacts.email_at_spec.
Qed.

Lemma extract_email_sound_witness :
  fst (ContactBuilder._extract
         (ContactBuilder.text Extracts.html_page))
  = Some "contact@example.com"
  /\ MoreProps.occurs_in "contact@example.com"
                         (ContactBuilder.text Extracts.html_page)
  /\ MoreProps.email_shape "contact@example.com".
Proof.
  split; [reflexivity|].
  apply (extract_email_sound (ContactBuilder.text Extracts.html_page)).
  reflexivity.
Defined.



(** X3: every request and every delay of a resolution pass belongs to the
    work on a row that the mask selected: a plain fetch of that row's
    website (with the scheme put before it when it has none), of its
    [/impressum] or of its [/kontakt] page, the navigation of the browser
    to that website and its settle time, or the delay after the row.  A
    row that the mask did not select is never requested. *)
Theorem requests_only_for_selected_rows (w : ContactBuilder.world)
  (selenium : bool) (df : ContactBuilder.table) :
  Forall (fun ev =>
            Props.session_event ev = true
            \/ MoreProps.from_selected_row
                 (selenium && ContactBuilder.chrome_available w) df ev)
         (ContactBuilder.trace
            (snd (ContactBuilder._scrape_missing w selenium
                    (ContactBuilder.mkState df [])))).
Proof.
  destruct (EventFacts.pass_trace w selenium df) as [evs [Hevs ->]].
  apply Forall_app; split; [|apply Forall_app; split].
  - destruct selenium; [destruct (ContactBuilder.chrome_available w)|];
      repeat (constructor; [now left|]); constructor.
  - eapply Forall_impl; [|exact Hevs]. intros ev H. now right.
  - destruct (fst (ContactBuilder._scrape_missing w selenium
                     (ContactBuilder.mkState df []))); [|constructor].
    destruct (selenium && ContactBuilder.chrome_available w);
      repeat (constructor; [now left|]); constructor.
Qed.

(** X4: without a driver, that is when the browser fallback is disabled or
    the browser cannot be started, a pass never navigates a browser and
    never quits one: it only makes plain requests, waits 1.5 s after rows,
    and reports the browser as unavailable. *)
Theorem no_browser_without_driver (w : ContactBuilder.world)
  (selenium : bool) (df : ContactBuilder.table) :
  selenium && ContactBuilder.chrome_available w = false ->
  Forall (fun ev => MoreProps.plain_event ev = true)
         (ContactBuilder.trace
            (snd (ContactBuilder._scrape_missing w selenium
                    (ContactBuilder.mkState df [])))).
Proof.
  intro Hd.
  destruct (EventFacts.pass_trace w selenium df) as [evs [Hevs ->]].
  rewrite Hd in *.
  apply Forall_app; split; [|apply Forall_app; split].
  - destruct selenium; [|constructor].
    destruct (ContactBuilder.chrome_available w); [discriminate Hd|].
    constructor; [reflexivity | constructor].
  - eapply Forall_impl; [|exact Hevs].
    intros ev [e [_ [_ Hev]]]. unfold MoreProps.row_events in Hev.
    simpl in Hev.
    repeat (destruct Hev as [<-|Hev]; [reflexivity|]). contradiction.
  - destruct (fst (ContactBuilder._scrape_missing w selenium
                     (ContactBuilder.mkState df []))); constructor.
Qed.

(** X4 with the browser fallback requested and no browser installed. *)
Lemma no_browser_without_driver_witness :
  true && ContactBuilder.chrome_available Extracts.friendly_web = false
  /\ Forall (fun ev => MoreProps.plain_event ev = true)
            (ContactBuilder.trace
               (snd (ContactBuilder._scrape_missing Extracts.friendly_web true
                       (ContactBuilder.mkState
                          [(Str "OP3", Extracts.op3)] [])))).
Proof.
  split; [reflexivity|].
  apply (no_browser_without_driver Extracts.friendly_web true). reflexivity.
Defined.





(** X8: the deduplicated operator table does not depend on where the
    chunks of the extract are cut: reading the rows of one chunk as two
    consecutive chunks with the same header gives the same table. *)
Theorem operator_table_independent_of_chunking (pre : feed)
  (cols : list string) (r1 r2 : list (list cell)) (post : feed) :
  fst (ContactBuilder._deduplicate
         (pre ++ Chunk (Frame.mk cols (r1 ++ r2)) :: post))
  = fst (ContactBuilder._deduplicate
           (pre ++ Chunk (Frame.mk cols r1)
                :: Chunk (Frame.mk cols r2) :: post)).
Proof.
  rewrite !DedupFacts.deduplicate_rows.
  now rewrite ChunkFacts.fed_rows_rechunk.
Qed.

(** X9: the deduplicated operator table is empty exactly when no row that
    the scan reaches passes the retention guard, and exactly then the
    diagnostic that no market actor data was found is printed. *)
Theorem empty_operator_table (market_csv : feed) :
  (fst (ContactBuilder._deduplicate market_csv) = []
   <-> Forall (fun r => ContactBuilder.retained r = false)
              (ContactBuilder.fed_rows market_csv))
  /\ (In ContactBuilder.NoMarketActorData
         (snd (ContactBuilder._deduplicate market_csv))
      <-> fst (ContactBuilder._deduplicate market_csv) = []).
Proof.
  split; [apply ChunkFacts.empty_table_iff | apply ChunkFacts.no_data_logged_iff].
Qed.


(** X11: what [build] returns and what it writes agree: when the pass did
    not raise, the returned table is the rows of the sheets of the
    workbook, in order, without the website column; when the pass raised,
    no workbook is written. *)
Theorem workbook_matches_returned_table (market_csv : feed)
  (scrape selenium : bool) (w : ContactBuilder.world) :
  let b := ContactBuilder.build market_csv scrape selenium w in
  match ContactBuilder.contacts b with
  | ContactBuilder.Done cs =>
      cs = map (fun e => ContactBuilder.drop_website (snd e))
               (List.concat (map snd (ContactBuilder.workbook b)))
  | ContactBuilder.Raised => ContactBuilder.workbook b = []
  end.
Proof.
  unfold ContactBuilder.build.
  destruct (ContactBuilder._deduplicate market_csv) as [df log].
  destruct ((if scrape then ContactBuilder._scrape_missing w selenium
             else ContactBuilder.ret tt) (ContactBuilder.mkState df []))
    as [[u|] st]; cbn; [|reflexivity].
  rewrite SheetFacts.save_xlsx_rows.
  rewrite SheetFacts.shards_concat by apply SheetFacts.MAXROWS_positive.
  reflexivity.
Qed.

(** X12: the join keeps every pair of a plant row and an operator row
    with the same identifier: the joined table has a row that carries that
    plant and that operator's identifier, name, e-mail and phone. *)
Theorem join_carries_operator (plants : list PlantBuilder.plant)
  (cs : list ContactBuilder.contact) (p : PlantBuilder.plant)
  (c : ContactBuilder.contact) :
  In p plants -> In c cs ->
  ContactBuilder.c_market_actor_id c = Str (PlantBuilder.operator_id p) ->
  In (Main.matched p c) (Main.merge plants cs).
Proof.
  intros Hp Hc Hkey. unfold Main.merge. apply in_flat_map.
  exists p. split; [exact Hp|].
  assert (Hin : In c (filter (Main.key_matches p) cs)).
  { apply filter_In. split; [exact Hc|]. unfold Main.key_matches.
    rewrite Hkey. apply cell_eqb_refl. }
  destruct (filter (Main.key_matches p) cs) as [|x l] eqn:E;
    [contradiction|].
  now apply in_map.
Qed.

(** X12 on the A1 extract and operator OP1. *)
Lemma join_carries_operator_witness :
  let plants :=
    fst (PlantBuilder.build PlantBuilder.decimal_numeric
                            Extracts.biomass_a1 [] []) in
  let cs := map ContactBuilder.drop_website [Extracts.op1; Extracts.op9] in
  let p := PlantBuilder.mkPlant "a1" "" "" 0 500 0 "OP1"
             PlantBuilder.NoCoord PlantBuilder.NoCoord "biogas" in
  let c := ContactBuilder.drop_website Extracts.op1 in
  In p plants /\ In c cs
  /\ ContactBuilder.c_market_actor_id c = Str (PlantBuilder.operator_id p)
  /\ In (Main.matched p c) (Main.merge plants cs)
  /\ Main.j_email (Main.matched p c) = Str "a@x.de".
Proof.
  cbv zeta.
  assert (Hp : In (PlantBuilder.mkPlant "a1" "" "" 0 500 0 "OP1"
                     PlantBuilder.NoCoord PlantBuilder.NoCoord "biogas")
                  (fst (PlantBuilder.build PlantBuilder.decimal_numeric
                          Extracts.biomass_a1 [] [])))
    by (vm_compute; now left).
  assert (Hc : In (ContactBuilder.drop_website Extracts.op1)
                  (map ContactBuilder.drop_website
                       [Extracts.op1; Extracts.op9]))
    by (now left).
  split; [exact Hp|]. split; [exact Hc|]. split; [reflexivity|].
  split; [|reflexivity].
  exact (join_carries_operator _ _ _ _ Hp Hc eq_refl).
Defined.

(** X13: when the operator scan retains no row (an empty or unreadable
    extract, for instance), the pipeline does not fail: whatever the
    switches, it returns the plants table with nulls in all operator
    columns. *)
Theorem pipeline_without_operators (to_numeric : string -> option Q)
  (market biomass gas loc : feed) (scrape selenium : bool)
  (w : ContactBuilder.world) :
  fst (ContactBuilder._deduplicate market) = [] ->
  Main.build_database to_numeric market biomass gas loc scrape selenium w
  = ContactBuilder.Done
      (map Main.unmatched
           (fst (PlantBuilder.build to_numeric biomass gas loc))).
Proof.
  intro He. unfold Main.build_database, ContactBuilder.build.
  destruct (ContactBuilder._deduplicate market) as [df log].
  simpl in He. subst df.
  assert (Hrun : exists tr,
             (if scrape then ContactBuilder._scrape_missing w selenium
              else ContactBuilder.ret tt) (ContactBuilder.mkState [] [])
             = (ContactBuilder.Done tt, ContactBuilder.mkState [] tr)).
  { destruct scrape; [|now exists []].
    rewrite PassFacts.scrape_missing_unfold. simpl. eexists. reflexivity. }
  destruct Hrun as [tr ->]. cbn.
  assert (Hm : forall l, Main.merge l [] = map Main.unmatched l).
  { induction l as [|p l IH]; [reflexivity|].
    change (Main.merge (p :: l) [])
      with (Main.unmatched p :: Main.merge l []).
    now rewrite IH. }
  now rewrite Hm.
Qed.

(** X13 on an operator extract that is an empty file. *)
Lemma pipeline_without_operators_witness :
  fst (ContactBuilder._deduplicate [EmptyDataError]) = []
  /\ Main.build_database PlantBuilder.decimal_numeric [EmptyDataError]
                         Extracts.biomass_a1 [] [] true true
                         Extracts.silent_web
     = ContactBuilder.Done
         (map Main.unmatched
              (fst (PlantBuilder.build PlantBuilder.decimal_numeric
                                       Extracts.biomass_a1 [] []))).
Proof.
  split; [reflexivity|].
  apply pipeline_without_operators. reflexivity.
Defined.



(** X15: the identifiers of every row of the plants table are cleaned: the
    plant identifier has no blank and no upper-case letter, and the
    operator identifier and the postal code contain no white space. *)
Theorem plant_identifiers_clean (to_numeric : string -> option Q)
  (biomass gas loc : feed) :
  Forall MoreProps.clean_ids
         (fst (PlantBuilder.build to_numeric biomass gas loc)).
Proof.
  apply PlantRowFacts.build_forall. intros chunk loc_map has_el row.
  unfold MoreProps.clean_ids, PlantBuilder.to_plant.
  destruct (PlantBuilder.locate to_numeric chunk loc_map row). simpl.
  split; [apply PlantRowFacts.to_plant_id_clean|].
  split; apply PlantRowFacts.remove_spaces_clean.
Qed.

(** X16: the coordinates of a row of the plants table are never numbers,
    whatever longitude and latitude columns the extract has: they are
    both missing, or both the empty string that the location map holds for
    the unit. *)
Theorem plant_coordinates_never_numeric (to_numeric : string -> option Q)
  (biomass gas loc : feed) :
  Forall MoreProps.blank_coordinates
         (fst (PlantBuilder.build to_numeric biomass gas loc)).
Proof.
  apply PlantRowFacts.build_forall. intros.
  apply PlantRowFacts.to_plant_coordinates.
Qed.



(** X19: the manual export leaves a result with exactly the four dataset
    keys biomass, gas_producer, market_actors and locations, each with the
    file of its own name; all it does is exporting a table of a dataset's
    priority list to that dataset's file, failing to export a table, or
    creating that file empty.  It never writes a file with headers only
    and never writes the files of the older naming (gas.csv, market.csv,
    location.csv): the loop for backwards compatibility and the final loop
    find every dataset already present. *)
Theorem manual_export_outcome (w : Fetcher.world)
  (available : list string) (evs : list Fetcher.event) :
  Fetcher.available_tables w = Some available ->
  exists more,
    Fetcher._manual_export w ([], evs)
    = Some (MoreProps.dataset_paths, evs ++ more)
    /\ Forall MoreProps.manual_event more.
Proof. apply FetchFacts.manual_export_result. Qed.

Lemma manual_export_outcome_witness :
  exists more,
    Fetcher._manual_export Extracts.broken_export ([], [])
    = Some (MoreProps.dataset_paths, [] ++ more)
    /\ Forall MoreProps.manual_event more.
Proof.
  apply (manual_export_outcome Extracts.broken_export
           ["biomass"; "biomass_extended"; "gas"] []).
  reflexivity.
Defined.

(** X20: for one dataset the manual export skips the tables that the
    database does not have; when the first table it has is exported
    without error, that table is written to the dataset's file and no
    other table is tried; when the database has none of the tables,
    nothing is exported. *)
Theorem first_present_table_exported (w : Fetcher.world)
  (available : list string) (dataset_key : string)
  (table_priority : list string) (st : Fetcher.state) :
  match find (fun t => existsb (String.eqb t) available) table_priority with
  | Some table_name =>
      (forall history, Fetcher.export_ok w history table_name = true) ->
      Fetcher.export_first w available dataset_key table_priority st
      = (true,
         (Fetcher.dict_set dataset_key (Fetcher.csv_name dataset_key)
                           (fst st),
          snd st
          ++ [Fetcher.ExportTable table_name
                                  (Fetcher.csv_name dataset_key)]))
  | None =>
      Fetcher.export_first w available dataset_key table_priority st
      = (false, st)
  end.
Proof.
  induction table_priority as [|t rest IH]; [reflexivity|].
  cbn [find Fetcher.export_first].
  destruct (existsb (String.eqb t) available); [|exact IH].
  intro Hok. unfold Fetcher.export_table. now rewrite Hok.
Qed.

Lemma first_present_table_exported_witness :
  Fetcher.export_first Extracts.broken_export
    ["biomass"; "biomass_extended"; "gas"] "gas_producer"
    ["gas_producer"; "gas"; "Gas"] ([], [])
  = (true,
     ([("gas_producer", "gas_producer.csv")],
      [Fetcher.ExportTable "gas" "gas_producer.csv"])).
Proof.
  apply (first_present_table_exported Extracts.broken_export
           ["biomass"; "biomass_extended"; "gas"] "gas_producer"
           ["gas_producer"; "gas"; "Gas"] ([], [])).
  intro history. reflexivity.
Defined.

(** X21: whenever [fetch_all] returns after an export, its result names a
    file for each of the four datasets that the pipeline looks up, under
    the dataset's own name, so that none of the lookups of
    [build_database] can miss its key. *)
Theorem fetch_all_has_every_dataset (w : Fetcher.world) (method : string)
  (result_paths : Fetcher.paths) :
  fst (Fetcher.fetch_all w method true) = Fetcher.Returned result_paths ->
  forall key,
    In key ["market_actors"; "biomass"; "gas_producer"; "locations"] ->
    Fetcher.dict_get key result_paths = Some (Fetcher.csv_name key).
Proof.
  unfold Fetcher.fetch_all. intros H key Hkey.
  assert (Hkey' : In key (map fst MoreProps.dataset_paths))
    by (simpl in *; tauto).
  destruct (negb (Fetcher.download_ok w _)); [discriminate H|].
  cbn [negb] in H. destruct (Fetcher.to_csv_ok w).
  - inversion H; subst. now apply FetchFacts.copy_exported_files_paths.
  - destruct (Fetcher.available_tables w) as [available|] eqn:Hav.
    + unfold Fetcher.log in H. cbn [fst snd app] in H.
      match type of H with
      | context [Fetcher._manual_export w ([], ?trace)] =>
          pose (evs := trace);
          destruct (FetchFacts.manual_export_result w available evs Hav)
            as [more [E _]]
      end.
      match type of H with
      | context [Fetcher._manual_export w ?st] =>
          change (Fetcher._manual_export w st)
            with (Fetcher._manual_export w ([], evs)) in H
      end.
      rewrite E in H.
      inversion H; subst. clear - Hkey'. simpl in Hkey'.
      repeat (destruct Hkey' as [<-|Hkey']; [reflexivity|]). contradiction.
    + unfold Fetcher._manual_export in H. rewrite Hav in H. discriminate H.
Qed.

Lemma fetch_all_has_every_dataset_witness :
  fst (Fetcher.fetch_all Extracts.broken_export "bulk" true)
  = Fetcher.Returned MoreProps.dataset_paths
  /\ Fetcher.dict_get "market_actors" MoreProps.dataset_paths
     = Some "market_actors.csv".
Proof.
  split; [reflexivity|].
  apply (fetch_all_has_every_dataset Extracts.broken_export "bulk"
           MoreProps.dataset_paths).
  - reflexivity.
  - now left.
Defined.
